(** * Buying pool: a household-affordability estimator

    A shallow embedding of the five variants of the calculator
    ([app.py], [app2.py], [app4.py], [app5.py], [app7.py]) and the
    properties of its mortgage engine, its income distribution and its
    two-property comparison.

    Number model.  Python's [int] and [float] values are embedded as real
    numbers: every finite float stands for the real it denotes and the
    rounding of the arithmetic is not modelled.  What Python does beyond
    ordinary arithmetic is written out:
    - [a / b] on Python floats raises [ZeroDivisionError] when [b] is zero:
      [Py.div] returns [None] there;
    - the built-in [max(a, b)] returns [b] only when [b > a];
    - numpy never raises on [log]: [np.log(0)] is [-inf] and [np.log] of a
      negative number is [nan].  The one function that can meet these
      values ([lognorm_cdf] of [app.py], which has no guard) is embedded
      over [npfloat], the reals extended with the two infinities and NaN.
    Float overflow and signed zeros are not modelled, so [None] stands
    for a division whose divisor is exactly zero: a divisor that is zero
    only after rounding, and the [OverflowError] of [**], are outside the
    model.  The region names are written without their flag emoji.  The
    widgets and the rendering of the tables and charts are left out; the
    computations between the inputs and the displayed values are embedded
    statement by statement. *)

From Stdlib Require Import Reals Lra Lia Bool List String.
From Stdlib Require Import Machin.
Import ListNotations.
Open Scope R_scope.

(** ** Python and numpy primitives *)

Module Py.

(** [max(a, b)]: the first argument is kept unless the second is
    strictly greater. *)
Definition max (a b : R) : R := if Rlt_dec a b then b else a.

(** Float division; [None] is [ZeroDivisionError]. *)
Definition div (a b : R) : option R :=
  if Req_dec_T b 0 then None else Some (a / b).

Definition bind {A B : Type} (m : option A) (k : A -> option B) : option B :=
  match m with
  | Some a => k a
  | None => None
  end.

(** A [for] loop over a catalog that appends one row per entry; a body
    that raises aborts the loop. *)
Fixpoint for_each {A B : Type} (body : A -> option B) (l : list A)
    : option (list B) :=
  match l with
  | [] => Some []
  | a :: rest =>
      match body a with
      | None => None
      | Some b =>
          match for_each body rest with
          | None => None
          | Some bs => Some (b :: bs)
          end
      end
  end.

End Py.

Notation "x <- m ;; k" := (Py.bind m (fun x => k))
  (at level 61, m at next level, right associativity).

(** numpy's float64 with its special values. *)
Inductive npfloat : Type :=
| Fin (r : R)
| PInf
| NInf
| NaN.

Module Np.

Definition sign_inf (positive : bool) : npfloat :=
  if positive then PInf else NInf.

Definition neg (a : npfloat) : npfloat :=
  match a with
  | Fin r => Fin (- r)
  | PInf => NInf
  | NInf => PInf
  | NaN => NaN
  end.

Definition add (a b : npfloat) : npfloat :=
  match a, b with
  | NaN, _ | _, NaN => NaN
  | Fin x, Fin y => Fin (x + y)
  | PInf, NInf | NInf, PInf => NaN
  | PInf, _ | _, PInf => PInf
  | NInf, _ | _, NInf => NInf
  end.

Definition sub (a b : npfloat) : npfloat := add a (neg b).

(** An infinity times a finite [r]: the sign follows [r], and
    [inf * 0] is NaN. *)
Definition scale_inf (positive : bool) (r : R) : npfloat :=
  if Rlt_dec 0 r then sign_inf positive
  else if Rlt_dec r 0 then sign_inf (negb positive)
  else NaN.

Definition mul (a b : npfloat) : npfloat :=
  match a, b with
  | NaN, _ | _, NaN => NaN
  | Fin x, Fin y => Fin (x * y)
  | PInf, Fin r | Fin r, PInf => scale_inf true r
  | NInf, Fin r | Fin r, NInf => scale_inf false r
  | PInf, PInf | NInf, NInf => PInf
  | PInf, NInf | NInf, PInf => NInf
  end.

(** Division never raises in numpy: a finite nonzero value over zero is
    an infinity, [0 / 0] and [inf / inf] are NaN. *)
Definition div (a b : npfloat) : npfloat :=
  match a, b with
  | NaN, _ | _, NaN => NaN
  | Fin x, Fin y =>
      if Req_dec_T y 0 then scale_inf true x else Fin (x / y)
  | Fin _, (PInf | NInf) => Fin 0
  | PInf, Fin r => if Rlt_dec r 0 then NInf else PInf
  | NInf, Fin r => if Rlt_dec r 0 then PInf else NInf
  | (PInf | NInf), (PInf | NInf) => NaN
  end.

(** [np.log]. *)
Definition log (x : R) : npfloat :=
  if Rlt_dec 0 x then Fin (ln x)
  else if Req_dec_T x 0 then NInf
  else NaN.

(** [np.tanh]. *)
Definition tanh (a : npfloat) : npfloat :=
  match a with
  | Fin r => Fin (Rtrigo_def.tanh r)
  | PInf => Fin 1
  | NInf => Fin (-1)
  | NaN => NaN
  end.

(** [np.exp]. *)
Definition exp (a : npfloat) : npfloat :=
  match a with
  | Fin r => Fin (Rtrigo_def.exp r)
  | PInf => PInf
  | NInf => Fin 0
  | NaN => NaN
  end.

(** [np.linspace(start, stop, num)], end point included: [num] points
    [start + i * step] with [step = (stop - start) / (num - 1)]. *)
Definition linspace (start stop : R) (num : nat) : list R :=
  let step := (stop - start) / INR (num - 1) in
  map (fun i => INR i * step + start) (seq 0 num).

End Np.

(** ** The annuity formula

    Every variant computes the level monthly payment by the same
    expression,
    [loan * (monthly_rate * (1 + monthly_rate)**n_payments)
       / ((1 + monthly_rate)**n_payments - 1)];
    the multiplication is performed before the division. *)

Definition monthly_payment_formula
    (loan monthly_rate : R) (n_payments : nat) : option R :=
  Py.div (loan * (monthly_rate * (1 + monthly_rate) ^ n_payments))
         ((1 + monthly_rate) ^ n_payments - 1).

(** The household selected by the radio button. *)
Inductive household : Type :=
| Single
| Couple.

(** What the winner block of the two-property comparison shows. *)
Inductive verdict : Type :=
| Property1Wins
| Property2Wins
| Tie
| NoVerdict.

(** ** app.py: simple regime, first distribution approximation *)

Module App1.

Record region : Type := { down : R; rate : R; pop : R }.

Definition REGIONS : list (string * region) :=
  [ ("National"%string, {| down := 0.05; rate := 0.045; pop := 20000000 |});
    ("Ontario"%string,  {| down := 0.05; rate := 0.047; pop := 15000000 |});
    ("BC"%string,       {| down := 0.05; rate := 0.049; pop := 5300000 |});
    ("Alberta"%string,  {| down := 0.05; rate := 0.043; pop := 4500000 |});
    ("Quebec"%string,   {| down := 0.03; rate := 0.044; pop := 9000000 |}) ].

Definition mu : R := 10.45.
Definition sigma : R := 0.95.
Definition scale : R := exp mu.

(** [lognorm_cdf(x, s, scale)]; there is no guard on [x]. *)
Definition lognorm_cdf (x s scale : R) : npfloat :=
  let z := Np.div (Np.sub (Np.log x) (Np.log scale)) (Fin s) in
  Np.mul (Fin 0.5)
    (Np.add
       (Np.add (Fin 1)
          (Np.tanh (Np.div (Np.mul (Fin (sqrt 2)) z) (Fin 2))))
       (Np.mul (Fin (sqrt (2 / PI)))
          (Np.exp (Np.div (Np.neg (Np.mul z z)) (Fin 2))))).

Definition loan_amount (price down_pct : R) : R :=
  let down_payment := price * down_pct in
  price - down_payment.

(** [calc_affordable(price, down_pct, rate)] returns
    [(income_needed, down_payment)]. *)
Definition calc_affordable (price down_pct rate : R) : option (R * R) :=
  let down_payment := price * down_pct in
  let loan := loan_amount price down_pct in
  let monthly_rate := rate / 12 in
  let n_payments := (25 * 12)%nat in
  monthly_payment <- monthly_payment_formula loan monthly_rate n_payments ;;
  let income_needed := monthly_payment * 12 / 0.28 in
  Some (income_needed, down_payment).

End App1.

(** ** app2.py: guarded distribution, clamped income *)

Module App2.

Definition mu : R := 10.45.
Definition sigma : R := 0.95.

(** [lognorm_cdf(x, mu=10.45, sigma=0.95)].  Every call of the scripts
    leaves [mu] and [sigma] at their defaults, so the division by [sigma]
    is a division by 0.95. *)
Definition lognorm_cdf (x mu sigma : R) : R :=
  if Rle_dec x 0 then 0
  else
    let z := (ln x - mu) / sigma in
    0.5 * (1 + tanh (sqrt (2 / 3) * z)).

Definition calc_affordable (price down_pct rate : R) : option (R * R) :=
  let down_payment := price * down_pct in
  let loan := price - down_payment in
  let monthly_rate := rate / 12 in
  let n_payments := (25 * 12)%nat in
  monthly_payment <- monthly_payment_formula loan monthly_rate n_payments ;;
  let income_needed := Py.max 0 (monthly_payment * 12 / 0.28) in
  Some (income_needed, down_payment).


Record region : Type := { down : R; rate : R; pop : R }.

Definition REGIONS : list (string * region) :=
  [ ("National"%string, {| down := 0.05; rate := 0.045; pop := 20000000 |});
    ("Ontario"%string,  {| down := 0.05; rate := 0.047; pop := 15000000 |});
    ("BC"%string,       {| down := 0.05; rate := 0.049; pop := 5300000 |});
    ("Alberta"%string,  {| down := 0.05; rate := 0.043; pop := 4500000 |});
    ("Quebec"%string,   {| down := 0.03; rate := 0.044; pop := 9000000 |}) ].

(** [lognorm_pdf(x, mu=10.45, sigma=0.95)], one element of the array
    operation; numpy's [log] and division keep their special values. *)
Definition lognorm_pdf (x mu sigma : R) : npfloat :=
  let d := Np.sub (Np.log x) (Fin mu) in
  Np.div
    (Np.exp (Np.div (Np.neg (Np.mul d d)) (Fin (2 * sigma ^ 2))))
    (Fin (x * sigma * sqrt (2 * PI))).

(** [income_range = np.linspace(1, 400_000, 1000)], the abscissas of the
    chart. *)
Definition income_range : list R := Np.linspace 1 400000 1000.

(** The main panel of [app2.py]:
    [(income_needed, down_payment, prob, people, pct)]. *)
Definition main_panel (price : R) (region_data : region)
    (household_type : household) : option (R * R * R * R * R) :=
  r <- calc_affordable price (down region_data) (rate region_data) ;;
  let income_needed_single := fst r in
  let down_payment := snd r in
  let income_needed_couple := income_needed_single * 0.65 in
  let region_pop := pop region_data in
  match household_type with
  | Single =>
      let income_needed := income_needed_single in
      let prob := Py.max 0 (1 - lognorm_cdf income_needed mu sigma) in
      let people := prob * region_pop in
      Some (income_needed, down_payment, prob, people, prob * 100)
  | Couple =>
      let income_needed := income_needed_couple in
      let prob := Py.max 0 (1 - lognorm_cdf (income_needed * 1.4) mu sigma) in
      let people := prob * region_pop * 0.6 in
      Some (income_needed, down_payment, prob, people, prob * 100)
  end.

(** One pass of the regional loop; the row is
    [(r_name, income_needed, people_final, prob * 100)], where
    [income_needed] is the variable set by the main panel. *)
Definition table_row (price income_needed : R) (household_type : household)
    (entry : string * region) : option (string * R * R * R) :=
  let '(r_name, r_data) := entry in
  r <- calc_affordable price (down r_data) (rate r_data) ;;
  let inc_single := fst r in
  let inc_couple := inc_single * 0.65 in
  let prob :=
    match household_type with
    | Single => Py.max 0 (1 - lognorm_cdf inc_single mu sigma)
    | Couple => Py.max 0 (1 - lognorm_cdf (inc_couple * 1.4) mu sigma)
    end in
  let people_final :=
    prob * pop r_data
    * (match household_type with Couple => 0.6 | Single => 1 end) in
  Some (r_name, income_needed, people_final, prob * 100).

(** The script up to the regional table: the main panel, then the loop. *)
Definition comparison (price : R) (region_data : region)
    (household_type : household) : option (list (string * R * R * R)) :=
  m <- main_panel price region_data household_type ;;
  let '(income_needed, _, _, _, _) := m in
  Py.for_each (table_row price income_needed household_type) REGIONS.

End App2.

(** ** app4.py: simple regime, two-property comparison *)

Module App4.

Record region : Type := { down : R; rate : R; pop : R }.

Definition REGIONS : list (string * region) :=
  [ ("National"%string, {| down := 0.05; rate := 0.045; pop := 20000000 |});
    ("Ontario"%string,  {| down := 0.05; rate := 0.047; pop := 15000000 |});
    ("BC"%string,       {| down := 0.05; rate := 0.049; pop := 5300000 |});
    ("Alberta"%string,  {| down := 0.05; rate := 0.043; pop := 4500000 |});
    ("Quebec"%string,   {| down := 0.03; rate := 0.044; pop := 9000000 |}) ].

(** Same text as in [app2.py]. *)
Definition lognorm_cdf : R -> R -> R -> R := App2.lognorm_cdf.
Definition calc_affordable : R -> R -> R -> option (R * R) :=
  App2.calc_affordable.

(** The branch on [household_type]: the income a household needs and
    the share of the population it stands for. *)
Definition income_needed (household_type : household) (income_single : R) : R :=
  match household_type with
  | Single => income_single
  | Couple => income_single * 0.75
  end.

Definition pop_mult (household_type : household) : R :=
  match household_type with
  | Single => 0.40
  | Couple => 0.60
  end.

(** [prob = max(0, 1 - lognorm_cdf(income_needed))], with the default
    [mu] and [sigma]. *)
Definition prob (income : R) : R :=
  Py.max 0 (1 - lognorm_cdf income App2.mu App2.sigma).

Definition people (region_pop : R) (household_type : household) (income : R) : R :=
  prob income * region_pop * pop_mult household_type.

(** The winner block: a winner is shown only past the 50,000 gap, and
    the [else] branch names property 2. *)
Definition winner (price1 price2 people1 people2 : R) : verdict :=
  let buyer_diff := people1 - people2 in
  if Rlt_dec 50000 (Rabs (price1 - price2)) then
    if Rlt_dec 0 buyer_diff then Property1Wins else Property2Wins
  else NoVerdict.

(** The script from the inputs to the winner block:
    [(people1, people2, verdict)]. *)
Definition compare (price1 price2 : R) (region_data : region)
    (household_type : household) : option (R * R * verdict) :=
  r1 <- calc_affordable price1 (down region_data) (rate region_data) ;;
  r2 <- calc_affordable price2 (down region_data) (rate region_data) ;;
  let income1_needed := income_needed household_type (fst r1) in
  let income2_needed := income_needed household_type (fst r2) in
  let people1 := people (pop region_data) household_type income1_needed in
  let people2 := people (pop region_data) household_type income2_needed in
  Some (people1, people2, winner price1 price2 people1 people2).


(** One pass of the regional loop: [(r_name, p1, p2)]. *)
Definition table_row (price1 price2 : R) (household_type : household)
    (entry : string * region) : option (string * R * R) :=
  let '(r_name, r_data) := entry in
  r1 <- calc_affordable price1 (down r_data) (rate r_data) ;;
  r2 <- calc_affordable price2 (down r_data) (rate r_data) ;;
  let inc1 := fst r1 in
  let inc2 := fst r2 in
  let i1 := inc1 * (match household_type with Couple => 0.75 | Single => 1.0 end) in
  let i2 := inc2 * (match household_type with Couple => 0.75 | Single => 1.0 end) in
  let p1 := Py.max 0 (1 - lognorm_cdf i1 App2.mu App2.sigma)
            * pop r_data * pop_mult household_type in
  let p2 := Py.max 0 (1 - lognorm_cdf i2 App2.mu App2.sigma)
            * pop r_data * pop_mult household_type in
  Some (r_name, p1, p2).

Definition comparison (price1 price2 : R) (household_type : household)
    : option (list (string * R * R)) :=
  Py.for_each (table_row price1 price2 household_type) REGIONS.

End App4.

(** ** app5.py: stress-tested regime *)

Module App5.

Record region : Type := { rate : R; pop : R }.

Definition REGIONS : list (string * region) :=
  [ ("National"%string, {| rate := 0.045; pop := 20000000 |});
    ("Ontario"%string,  {| rate := 0.047; pop := 15000000 |});
    ("BC"%string,       {| rate := 0.049; pop := 5300000 |});
    ("Alberta"%string,  {| rate := 0.043; pop := 4500000 |});
    ("Quebec"%string,   {| rate := 0.044; pop := 9000000 |}) ].

Definition lognorm_cdf : R -> R -> R -> R := App2.lognorm_cdf.

(** [calculate_down_payment(price, first_time_buyer, new_construction)]. *)
Definition calculate_down_payment
    (price : R) (first_time_buyer new_construction : bool) : R :=
  if Rle_dec price 500000 then price * 0.05
  else if Rle_dec price 1500000 then
    let first_500k := 500000 * 0.05 in
    let above_500k := (price - 500000) * 0.10 in
    first_500k + above_500k
  else price * 0.20.

(** [calc_stress_test_payment] returns
    [(income_needed, down_payment, stress_rate, amortization_years)]. *)
Definition calc_stress_test_payment
    (price contract_rate : R) (first_time_buyer new_construction : bool)
    : option (R * R * R * nat) :=
  let down_payment :=
    calculate_down_payment price first_time_buyer new_construction in
  let loan := price - down_payment in
  let stress_rate := Py.max 0.0525 (contract_rate + 0.02) in
  let amortization_years :=
    if first_time_buyer || new_construction then 30%nat else 25%nat in
  let n_payments := (amortization_years * 12)%nat in
  let monthly_rate := stress_rate / 12 in
  monthly_payment <- monthly_payment_formula loan monthly_rate n_payments ;;
  let income_needed := monthly_payment * 12 / 0.39 in
  Some (income_needed, down_payment, stress_rate, amortization_years).

Definition income_needed (household_type : household) (income_single : R) : R :=
  match household_type with
  | Single => income_single
  | Couple => income_single * 0.75
  end.

Definition pop_mult (household_type : household) : R :=
  match household_type with
  | Single => 0.40
  | Couple => 0.60
  end.

Definition prob (income : R) : R :=
  Py.max 0 (1 - lognorm_cdf income App2.mu App2.sigma).

Definition people (region_pop : R) (household_type : household) (income : R) : R :=
  prob income * region_pop * pop_mult household_type.

(** The winner block of [app5.py]: [people1 > people2], else property 2. *)
Definition winner (price1 price2 people1 people2 : R) : verdict :=
  if Rlt_dec 50000 (Rabs (price1 - price2)) then
    if Rlt_dec people2 people1 then Property1Wins else Property2Wins
  else NoVerdict.


(** The script from the inputs to the winner block:
    [(people1, people2, verdict)]. *)
Definition compare (price1 price2 : R) (region_data : region)
    (household_type : household) (first_time new_build : bool)
    : option (R * R * verdict) :=
  r1 <- calc_stress_test_payment price1 (rate region_data) first_time new_build ;;
  r2 <- calc_stress_test_payment price2 (rate region_data) first_time new_build ;;
  let '(income1_single, _, _, _) := r1 in
  let '(income2_single, _, _, _) := r2 in
  let income1_needed := income_needed household_type income1_single in
  let income2_needed := income_needed household_type income2_single in
  let people1 := people (pop region_data) household_type income1_needed in
  let people2 := people (pop region_data) household_type income2_needed in
  Some (people1, people2, winner price1 price2 people1 people2).

End App5.

(** ** app7.py: stress-tested regime, comparison with a tie *)

Module App7.

Record region : Type := { rate : R; pop : R }.

Definition REGIONS : list (string * region) :=
  [ ("National"%string, {| rate := 0.045; pop := 20000000 |});
    ("Ontario"%string,  {| rate := 0.047; pop := 15000000 |});
    ("BC"%string,       {| rate := 0.049; pop := 5300000 |});
    ("Alberta"%string,  {| rate := 0.043; pop := 4500000 |});
    ("Quebec"%string,   {| rate := 0.044; pop := 9000000 |}) ].

Definition lognorm_cdf : R -> R -> R -> R := App2.lognorm_cdf.

(** [calculate_down_payment(price)]. *)
Definition calculate_down_payment (price : R) : R :=
  if Rle_dec price 500000 then price * 0.05
  else if Rle_dec price 1500000 then
    let first_500k := 500000 * 0.05 in
    let above_500k := (price - 500000) * 0.10 in
    first_500k + above_500k
  else price * 0.20.

Definition calc_stress_test_payment
    (price contract_rate : R) (first_time_buyer new_construction : bool)
    : option (R * R * R * nat) :=
  let down_payment := calculate_down_payment price in
  let loan := price - down_payment in
  let stress_rate := Py.max 0.0525 (contract_rate + 0.02) in
  let amortization_years :=
    if first_time_buyer || new_construction then 30%nat else 25%nat in
  let n_payments := (amortization_years * 12)%nat in
  let monthly_rate := stress_rate / 12 in
  monthly_payment <- monthly_payment_formula loan monthly_rate n_payments ;;
  let income_needed := monthly_payment * 12 / 0.39 in
  Some (income_needed, down_payment, stress_rate, amortization_years).

Definition income_needed (household_type : household) (income_single : R) : R :=
  match household_type with
  | Single => income_single
  | Couple => income_single * 0.75
  end.

Definition pop_mult (household_type : household) : R :=
  match household_type with
  | Single => 0.40
  | Couple => 0.60
  end.

Definition prob (income : R) : R :=
  Py.max 0 (1 - lognorm_cdf income App2.mu App2.sigma).

Definition people (region_pop : R) (household_type : household) (income : R) : R :=
  prob income * region_pop * pop_mult household_type.

(** The winner block of [app7.py], with its [Tie] branch. *)
Definition winner (price1 price2 buyer_difference : R) : verdict :=
  if Rlt_dec 50000 (Rabs (price1 - price2)) then
    if Rlt_dec 0 buyer_difference then Property1Wins
    else if Rlt_dec buyer_difference 0 then Property2Wins
    else Tie
  else NoVerdict.

(** The script from the inputs to the winner block:
    [(people1, people2, verdict)]. *)
Definition compare (price1 price2 : R) (region_data : region)
    (household_type : household) (first_time new_constr : bool)
    : option (R * R * verdict) :=
  r1 <- calc_stress_test_payment price1 (rate region_data) first_time new_constr ;;
  r2 <- calc_stress_test_payment price2 (rate region_data) first_time new_constr ;;
  let '(income1_single, _, _, _) := r1 in
  let '(income2_single, _, _, _) := r2 in
  let income1_needed := income_needed household_type income1_single in
  let income2_needed := income_needed household_type income2_single in
  let people1 := people (pop region_data) household_type income1_needed in
  let people2 := people (pop region_data) household_type income2_needed in
  let buyer_difference := people1 - people2 in
  Some (people1, people2, winner price1 price2 buyer_difference).


(** The relative figure of the buyer-difference metric,
    [(people1-people2)/max(people1,people2)*100]; it is computed whatever
    the price gap.  For positive prices the incomes are positive and both
    counts are numpy floats (they come out of [np.tanh]), so the division
    is numpy's: a zero divisor gives NaN or an infinity and nothing is
    raised. *)
Definition buyer_difference_pct (people1 people2 : R) : npfloat :=
  Np.mul
    (Np.div (Fin (people1 - people2)) (Fin (Py.max people1 people2)))
    (Fin 100).

(** One pass of the regional loop: [(r_name, p1, p2)]. *)
Definition table_row (price1 price2 : R) (household_type : household)
    (first_time new_constr : bool)
    (entry : string * region) : option (string * R * R) :=
  let '(r_name, r_data) := entry in
  r1 <- calc_stress_test_payment price1 (rate r_data) first_time new_constr ;;
  r2 <- calc_stress_test_payment price2 (rate r_data) first_time new_constr ;;
  let '(i1, _, _, _) := r1 in
  let '(i2, _, _, _) := r2 in
  let i1_adj := i1 * (match household_type with Couple => 0.75 | Single => 1.0 end) in
  let i2_adj := i2 * (match household_type with Couple => 0.75 | Single => 1.0 end) in
  let p1 := Py.max 0 (1 - lognorm_cdf i1_adj App2.mu App2.sigma)
            * pop r_data * pop_mult household_type in
  let p2 := Py.max 0 (1 - lognorm_cdf i2_adj App2.mu App2.sigma)
            * pop r_data * pop_mult household_type in
  Some (r_name, p1, p2).

Definition comparison (price1 price2 : R) (household_type : household)
    (first_time new_constr : bool) : option (list (string * R * R)) :=
  Py.for_each (table_row price1 price2 household_type first_time new_constr)
    REGIONS.

End App7.

(** ** Quantities used to state the properties *)

(** The payment per unit of principal: the annuity formula with the loan
    factored out. *)
Definition payment_factor (monthly_rate : R) (n_payments : nat) : R :=
  monthly_rate * (1 + monthly_rate) ^ n_payments
  / ((1 + monthly_rate) ^ n_payments - 1).

(** The amortization rule of the stress-tested regime. *)
Definition amortization_rule (first_time_buyer new_construction : bool) : nat :=
  if first_time_buyer || new_construction then 30%nat else 25%nat.

(** The principal financed in the stress-tested regime. *)
Definition stress_loan (price : R) : R :=
  price - App7.calculate_down_payment price.

(** The three band formulas of the tiered down payment. *)
Definition band_low (price : R) : R := price * 0.05.
Definition band_mid (price : R) : R := 500000 * 0.05 + (price - 500000) * 0.10.
Definition band_high (price : R) : R := price * 0.20.

(** Components of the tuple returned by [calc_stress_test_payment]. *)
Definition income_of (r : option (R * R * R * nat)) : option R :=
  option_map (fun t => fst (fst (fst t))) r.
Definition stress_rate_of (r : option (R * R * R * nat)) : option R :=
  option_map (fun t => snd (fst t)) r.
Definition amortization_of (r : option (R * R * R * nat)) : option nat :=
  option_map snd r.

(** The value today of one unit paid at the end of each of [n] periods,
    [(1 - (1+r)^-n) / r]: the reciprocal of the payment factor. *)
Definition annuity_value (monthly_rate : R) (n_payments : nat) : R :=
  (1 - (/ (1 + monthly_rate)) ^ n_payments) / monthly_rate.

(** The verdict seen from the other property. *)
Definition swap_verdict (v : verdict) : verdict :=
  match v with
  | Property1Wins => Property2Wins
  | Property2Wins => Property1Wins
  | Tie => Tie
  | NoVerdict => NoVerdict
  end.

(** * Properties *)

(** ** Python primitives *)

Lemma py_max_Rmax (a b : R) : Py.max a b = Rmax a b.
Proof.
  unfold Py.max, Rmax.
  destruct (Rlt_dec a b), (Rle_dec a b); lra.
Qed.

Lemma py_max_lower (a b : R) : a <= Py.max a b.
Proof. unfold Py.max; destruct (Rlt_dec a b); lra. Qed.

Lemma py_max_right (a b : R) : a < b -> Py.max a b = b.
Proof. unfold Py.max; destruct (Rlt_dec a b); lra. Qed.

Lemma py_max_left (a b : R) : b <= a -> Py.max a b = a.
Proof. unfold Py.max; destruct (Rlt_dec a b); lra. Qed.

Lemma py_div_some (a b : R) : b <> 0 -> Py.div a b = Some (a / b).
Proof.
  intros Hb; unfold Py.div.
  destruct (Req_dec_T b 0); [contradiction | reflexivity].
Qed.

Lemma py_div_zero (a : R) : Py.div a 0 = None.
Proof.
  unfold Py.div.
  destruct (Req_dec_T 0 0) as [_ | Hne]; [reflexivity | now elim Hne].
Qed.

(** ** The annuity formula *)

Lemma growth_minus_one_pos (r : R) (n : nat) :
  0 < r -> (0 < n)%nat -> 0 < (1 + r) ^ n - 1.
Proof.
  intros Hr Hn.
  assert (1 < (1 + r) ^ n) by (apply Rlt_pow_R1; [lra | exact Hn]).
  lra.
Qed.

Lemma payment_factor_pos (r : R) (n : nat) :
  0 < r -> (0 < n)%nat -> 0 < payment_factor r n.
Proof.
  intros Hr Hn; unfold payment_factor.
  apply Rdiv_lt_0_compat.
  - apply Rmult_lt_0_compat; [exact Hr | apply pow_lt; lra].
  - now apply growth_minus_one_pos.
Qed.

Lemma monthly_payment_formula_pos_rate (loan r : R) (n : nat) :
  0 < r -> (0 < n)%nat ->
  monthly_payment_formula loan r n = Some (loan * payment_factor r n).
Proof.
  intros Hr Hn; unfold monthly_payment_formula, payment_factor.
  pose proof (growth_minus_one_pos r n Hr Hn) as Hd.
  rewrite py_div_some by lra.
  f_equal; unfold Rdiv; ring.
Qed.

Lemma monthly_payment_formula_zero_rate (loan : R) (n : nat) :
  monthly_payment_formula loan 0 n = None.
Proof.
  unfold monthly_payment_formula.
  replace ((1 + 0) ^ n - 1) with 0.
  - apply py_div_zero.
  - rewrite Rplus_0_r, pow1; ring.
Qed.

(** ** The stress-test rate and the amortization term *)

Lemma stress_rate_floor (c : R) : 0.0525 <= Py.max 0.0525 (c + 0.02).
Proof. apply py_max_lower. Qed.

Lemma stress_monthly_rate_pos (c : R) : 0 < Py.max 0.0525 (c + 0.02) / 12.
Proof. pose proof (stress_rate_floor c); lra. Qed.

Lemma amortization_rule_pos (f n : bool) : (0 < amortization_rule f n * 12)%nat.
Proof. unfold amortization_rule; destruct (f || n); lia. Qed.

Lemma app7_calc_eq (price c : R) (f n : bool) :
  App7.calc_stress_test_payment price c f n =
  Some (stress_loan price
          * payment_factor (Py.max 0.0525 (c + 0.02) / 12)
                           (amortization_rule f n * 12)
          * 12 / 0.39,
        App7.calculate_down_payment price,
        Py.max 0.0525 (c + 0.02),
        amortization_rule f n).
Proof.
  unfold App7.calc_stress_test_payment.
  fold (amortization_rule f n).
  rewrite monthly_payment_formula_pos_rate
    by (apply stress_monthly_rate_pos || apply amortization_rule_pos).
  reflexivity.
Qed.

Lemma app5_down_payment_eq (price : R) (f n : bool) :
  App5.calculate_down_payment price f n = App7.calculate_down_payment price.
Proof. reflexivity. Qed.

Lemma app5_calc_eq (price c : R) (f n : bool) :
  App5.calc_stress_test_payment price c f n =
  Some (stress_loan price
          * payment_factor (Py.max 0.0525 (c + 0.02) / 12)
                           (amortization_rule f n * 12)
          * 12 / 0.39,
        App7.calculate_down_payment price,
        Py.max 0.0525 (c + 0.02),
        amortization_rule f n).
Proof. exact (app7_calc_eq price c f n). Qed.

(** C6.  In the stress-tested regime the qualifying rate, returned with
    the result and used (divided by 12) in the payment that gives the
    required income, is [max(0.0525, contract_rate + 0.02)] for every
    price, rate and pair of flags; a contract rate of 0.045 gives 0.065
    and a contract rate of 0.01 gives the floor 0.0525. *)
Theorem stress_rate_is_floor_or_buffer :
  (forall (price c : R) (f n : bool),
      stress_rate_of (App5.calc_stress_test_payment price c f n)
        = Some (Rmax 0.0525 (c + 0.02))
      /\ stress_rate_of (App7.calc_stress_test_payment price c f n)
        = Some (Rmax 0.0525 (c + 0.02))
      /\ income_of (App5.calc_stress_test_payment price c f n)
        = Some (stress_loan price
                  * payment_factor (Rmax 0.0525 (c + 0.02) / 12)
                                   (amortization_rule f n * 12)
                  * 12 / 0.39)
      /\ income_of (App7.calc_stress_test_payment price c f n)
        = Some (stress_loan price
                  * payment_factor (Rmax 0.0525 (c + 0.02) / 12)
                                   (amortization_rule f n * 12)
                  * 12 / 0.39))
  /\ (forall (price : R) (f n : bool),
      stress_rate_of (App7.calc_stress_test_payment price 0.045 f n) = Some 0.065
      /\ stress_rate_of (App7.calc_stress_test_payment price 0.01 f n) = Some 0.0525
      /\ stress_rate_of (App5.calc_stress_test_payment price 0.045 f n) = Some 0.065
      /\ stress_rate_of (App5.calc_stress_test_payment price 0.01 f n) = Some 0.0525).
Proof.
  split.
  - intros price c f n.
    rewrite ?app5_calc_eq, ?app7_calc_eq; cbn.
    rewrite py_max_Rmax; repeat split; reflexivity.
  - intros price f n.
    rewrite ?app5_calc_eq, ?app7_calc_eq; cbn.
    rewrite py_max_right by lra.
    rewrite py_max_left by lra.
    repeat split; f_equal; lra.
Qed.

(** C7.  In the stress-tested regime the amortization term returned is 30
    years when first-time-buyer or new-construction is set and 25 years
    otherwise, whatever the price and the contract rate; two calls with the
    same flags return the same term. *)
Theorem amortization_term_by_flags :
  (forall (price c : R) (f n : bool),
      amortization_of (App5.calc_stress_test_payment price c f n)
        = Some (if f || n then 30%nat else 25%nat)
      /\ amortization_of (App7.calc_stress_test_payment price c f n)
        = Some (if f || n then 30%nat else 25%nat))
  /\ (forall (p1 p2 c1 c2 : R) (f n : bool),
      amortization_of (App5.calc_stress_test_payment p1 c1 f n)
        = amortization_of (App5.calc_stress_test_payment p2 c2 f n)
      /\ amortization_of (App7.calc_stress_test_payment p1 c1 f n)
        = amortization_of (App7.calc_stress_test_payment p2 c2 f n)).
Proof.
  split; intros.
  - rewrite ?app5_calc_eq, ?app7_calc_eq; cbn; auto.
  - rewrite ?app5_calc_eq, ?app7_calc_eq; cbn; auto.
Qed.

(** C10.  The tiered down payment does not depend on the buyer flags: the
    [app5.py] function returns the same amount under any two assignments
    of its two flags, the amount the one-argument function of [app7.py]
    returns for that price. *)
Theorem down_payment_ignores_flags :
  forall (price : R) (f1 n1 f2 n2 : bool),
    App5.calculate_down_payment price f1 n1
      = App5.calculate_down_payment price f2 n2
    /\ App5.calculate_down_payment price f1 n1
      = App7.calculate_down_payment price.
Proof.
  intros price f1 n1 f2 n2; split.
  - unfold App5.calculate_down_payment.
    destruct (Rle_dec price 500000); [reflexivity |].
    destruct (Rle_dec price 1500000); reflexivity.
  - apply app5_down_payment_eq.
Qed.

(** ** The zero-rate edge of the annuity formula *)

(** C3, as stated, fails: at periodic rate 0 the formula does not return
    [principal / n]; its denominator is zero and the division raises, for
    the loan of the 800,000 scenario and through [calc_affordable]. *)
Lemma zero_rate_is_not_principal_over_term :
  monthly_payment_formula 760000 0 (25 * 12) <> Some (760000 / INR (25 * 12))
  /\ monthly_payment_formula 760000 0 (25 * 12) = None
  /\ App1.calc_affordable 800000 0.05 0 = None.
Proof.
  assert (H : monthly_payment_formula 760000 0 (25 * 12) = None)
    by apply monthly_payment_formula_zero_rate.
  repeat split.
  - rewrite H; discriminate.
  - exact H.
  - unfold App1.calc_affordable.
    replace (0 / 12) with 0 by lra.
    now rewrite monthly_payment_formula_zero_rate.
Qed.

(** C3, amended.  No variant special-cases a zero rate: for every
    principal and every number of payments [n > 0], evaluating the
    annuity formula with a periodic rate of exactly 0 does not return
    [principal / n]; the denominator [(1+0)^n - 1] is 0 and the division
    raises. *)
Theorem annuity_zero_rate_raises :
  forall (principal : R) (n : nat),
    (0 < n)%nat ->
    monthly_payment_formula principal 0 n = None
    /\ monthly_payment_formula principal 0 n <> Some (principal / INR n).
Proof.
  intros principal n Hn.
  rewrite monthly_payment_formula_zero_rate.
  split; [reflexivity | discriminate].
Qed.

Lemma annuity_zero_rate_raises_witness :
  (0 < 25 * 12)%nat
  /\ monthly_payment_formula 760000 0 (25 * 12) = None
  /\ monthly_payment_formula 760000 0 (25 * 12)
      <> Some (760000 / INR (25 * 12)).
Proof.
  split.
  - simpl; lia.
  - apply (annuity_zero_rate_raises 760000 (25 * 12)).
    simpl; lia.
Defined.

(** ** The simple regime *)

Lemma app1_calc_eq (price down_pct rate : R) :
  0 < rate ->
  App1.calc_affordable price down_pct rate =
  Some (App1.loan_amount price down_pct
          * payment_factor (rate / 12) (25 * 12) * 12 / 0.28,
        price * down_pct).
Proof.
  intros Hr; unfold App1.calc_affordable.
  rewrite monthly_payment_formula_pos_rate by (lra || (simpl; lia)).
  reflexivity.
Qed.

Lemma app2_calc_eq (price down_pct rate : R) :
  0 < rate ->
  App2.calc_affordable price down_pct rate =
  Some (Py.max 0 ((price - price * down_pct)
                    * payment_factor (rate / 12) (25 * 12) * 12 / 0.28),
        price * down_pct).
Proof.
  intros Hr; unfold App2.calc_affordable.
  rewrite monthly_payment_formula_pos_rate by (lra || (simpl; lia)).
  reflexivity.
Qed.

Lemma simple_factor_pos (rate : R) :
  0 < rate -> 0 < payment_factor (rate / 12) (25 * 12).
Proof. intros Hr; apply payment_factor_pos; [lra | simpl; lia]. Qed.

(** C5, as stated, fails: in the 800,000 scenario the income required at
    a 5% down rate is not greater than the income required at 3%. *)
Lemma five_percent_income_not_greater :
  ~ (exists i5 i3 d5 d3 : R,
        App1.calc_affordable 800000 0.05 0.045 = Some (i5, d5)
        /\ App1.calc_affordable 800000 0.03 0.045 = Some (i3, d3)
        /\ d5 = 40000
        /\ App1.loan_amount 800000 0.05 = 760000
        /\ i5 > i3).
Proof.
  intros (i5 & i3 & d5 & d3 & H5 & H3 & _ & _ & Hgt).
  rewrite app1_calc_eq in H5, H3 by lra.
  injection H5 as <- _; injection H3 as <- _.
  pose proof (simple_factor_pos 0.045 ltac:(lra)) as HK.
  unfold App1.loan_amount in Hgt.
  set (K := payment_factor _ _) in *.
  lra.
Qed.

(** C5, amended.  In the simple-regime scenario with price 800,000, down
    rate 5%, contract rate 4.5% and GDS 28%, the down payment is 40,000,
    the loan is 760,000, and the required income is strictly smaller than
    the required income for the same price and rate at the 3% down rate
    (whose loan, 776,000, is larger). *)
Theorem scenario_800k_simple_regime :
  exists i5 i3 : R,
    App1.calc_affordable 800000 0.05 0.045 = Some (i5, 40000)
    /\ App1.loan_amount 800000 0.05 = 760000
    /\ App1.calc_affordable 800000 0.03 0.045 = Some (i3, 24000)
    /\ App1.loan_amount 800000 0.03 = 776000
    /\ i5 < i3.
Proof.
  pose proof (simple_factor_pos 0.045 ltac:(lra)) as HK.
  eexists; eexists.
  rewrite !app1_calc_eq by lra.
  unfold App1.loan_amount.
  split; [f_equal; f_equal; lra |].
  split; [lra |].
  split; [f_equal; f_equal; lra |].
  split; [lra |].
  set (K := payment_factor _ _) in *.
  lra.
Qed.

(** ** Required income as a function of price *)

Lemma stress_loan_values (p : R) :
  stress_loan p =
    if Rle_dec p 500000 then 0.95 * p
    else if Rle_dec p 1500000 then 0.9 * p + 25000
    else 0.8 * p.
Proof.
  unfold stress_loan, App7.calculate_down_payment.
  destruct (Rle_dec p 500000); [lra |].
  destruct (Rle_dec p 1500000); lra.
Qed.

Lemma stress_loan_mono (p1 p2 : R) :
  p1 < p2 -> p2 <= 1500000 \/ 1500000 < p1 ->
  stress_loan p1 < stress_loan p2.
Proof.
  intros Hlt Hside; rewrite !stress_loan_values.
  destruct (Rle_dec p1 500000), (Rle_dec p1 1500000),
           (Rle_dec p2 500000), (Rle_dec p2 1500000); lra.
Qed.

Lemma stress_factor_pos (c : R) (f n : bool) :
  0 < payment_factor (Py.max 0.0525 (c + 0.02) / 12) (amortization_rule f n * 12).
Proof.
  apply payment_factor_pos;
    [apply stress_monthly_rate_pos | apply amortization_rule_pos].
Qed.

Lemma household_income_mono (h : household) (i1 i2 : R) :
  i1 <= i2 -> App7.income_needed h i1 <= App7.income_needed h i2.
Proof. destruct h; simpl; lra. Qed.

Lemma stress_income_mono (p1 p2 c : R) (f n : bool) (h : household) :
  p1 < p2 -> p2 <= 1500000 \/ 1500000 < p1 ->
  exists i1 i2 : R,
    income_of (App7.calc_stress_test_payment p1 c f n) = Some i1
    /\ income_of (App7.calc_stress_test_payment p2 c f n) = Some i2
    /\ App7.income_needed h i1 <= App7.income_needed h i2.
Proof.
  intros Hlt Hside.
  rewrite !app7_calc_eq; cbn.
  do 2 eexists; split; [reflexivity | split; [reflexivity |]].
  apply household_income_mono.
  pose proof (stress_loan_mono p1 p2 Hlt Hside) as Hl.
  pose proof (stress_factor_pos c f n) as HK.
  set (K := payment_factor _ _) in *.
  assert (stress_loan p1 * K <= stress_loan p2 * K) by nra.
  lra.
Qed.

Lemma simple_income_mono (p1 p2 d r : R) :
  p1 < p2 -> d <= 1 -> 0 < r ->
  exists i1 i2 d1 d2 : R,
    App1.calc_affordable p1 d r = Some (i1, d1)
    /\ App1.calc_affordable p2 d r = Some (i2, d2)
    /\ i1 <= i2.
Proof.
  intros Hlt Hd Hr.
  rewrite !app1_calc_eq by exact Hr.
  do 4 eexists; split; [reflexivity | split; [reflexivity |]].
  pose proof (simple_factor_pos r Hr) as HK.
  unfold App1.loan_amount.
  set (K := payment_factor _ _) in *.
  assert (Hloan : p1 - p1 * d <= p2 - p2 * d) by nra.
  assert ((p1 - p1 * d) * K <= (p2 - p2 * d) * K)
    by (apply Rmult_le_compat_r; lra).
  lra.
Qed.

Lemma py_max_mono (a x y : R) : x <= y -> Py.max a x <= Py.max a y.
Proof.
  intros Hxy; unfold Py.max.
  destruct (Rlt_dec a x), (Rlt_dec a y); lra.
Qed.

Lemma clamped_income_mono (p1 p2 d r : R) (h : household) :
  p1 < p2 -> d <= 1 -> 0 < r ->
  exists i1 i2 d1 d2 : R,
    App4.calc_affordable p1 d r = Some (i1, d1)
    /\ App4.calc_affordable p2 d r = Some (i2, d2)
    /\ App4.income_needed h i1 <= App4.income_needed h i2.
Proof.
  intros Hlt Hd Hr.
  unfold App4.calc_affordable.
  rewrite !app2_calc_eq by exact Hr.
  do 4 eexists; split; [reflexivity | split; [reflexivity |]].
  pose proof (simple_factor_pos r Hr) as HK.
  set (K := payment_factor _ _) in *.
  assert (Hloan : p1 - p1 * d <= p2 - p2 * d) by nra.
  assert ((p1 - p1 * d) * K <= (p2 - p2 * d) * K)
    by (apply Rmult_le_compat_r; lra).
  assert (Hm : Py.max 0 ((p1 - p1 * d) * K * 12 / 0.28)
               <= Py.max 0 ((p2 - p2 * d) * K * 12 / 0.28))
    by (apply py_max_mono; lra).
  destruct h; simpl; lra.
Qed.

(** C1, as stated, fails across the 1,500,000 boundary: in the
    stress-tested regime the income required at 1,525,000 is smaller than
    the income required at 1,500,000 (the down payment jumps to 20% of the
    whole price, so the loan drops from 1,375,000 to 1,220,000). *)
Lemma income_drops_past_1500000 :
  exists i1 i2 : R,
    income_of (App7.calc_stress_test_payment 1500000 0.045 true false) = Some i1
    /\ income_of (App7.calc_stress_test_payment 1525000 0.045 true false) = Some i2
    /\ 1500000 < 1525000
    /\ i2 < i1.
Proof.
  rewrite !app7_calc_eq; cbn.
  do 2 eexists; split; [reflexivity | split; [reflexivity |]].
  split; [lra |].
  pose proof (stress_factor_pos 0.045 true false) as HK.
  rewrite !stress_loan_values.
  destruct (Rle_dec 1500000 500000), (Rle_dec 1500000 1500000),
           (Rle_dec 1525000 500000), (Rle_dec 1525000 1500000); try lra.
  set (K := payment_factor _ _) in *.
  lra.
Qed.

(** C1, amended.  With the other inputs fixed, required income is
    non-decreasing in price (a) in the stress-tested regime for every pair
    [p1 < p2] on one side of the 1,500,000 boundary, the 500,000 boundary
    included, for either household type, and (b) in the simple regime for
    every pair [p1 < p2], given a positive contract rate and a down rate
    of at most 1.  Nothing is claimed across 1,500,000. *)
Theorem required_income_monotone_in_price :
  forall (p1 p2 : R), p1 < p2 ->
    (forall (c : R) (f n : bool) (h : household),
        p2 <= 1500000 \/ 1500000 < p1 ->
        exists i1 i2 : R,
          income_of (App7.calc_stress_test_payment p1 c f n) = Some i1
          /\ income_of (App7.calc_stress_test_payment p2 c f n) = Some i2
          /\ income_of (App5.calc_stress_test_payment p1 c f n) = Some i1
          /\ income_of (App5.calc_stress_test_payment p2 c f n) = Some i2
          /\ App7.income_needed h i1 <= App7.income_needed h i2)
    /\ (forall (d r : R), d <= 1 -> 0 < r ->
        exists i1 i2 d1 d2 : R,
          App1.calc_affordable p1 d r = Some (i1, d1)
          /\ App1.calc_affordable p2 d r = Some (i2, d2)
          /\ i1 <= i2)
    /\ (forall (d r : R) (h : household), d <= 1 -> 0 < r ->
        exists i1 i2 d1 d2 : R,
          App4.calc_affordable p1 d r = Some (i1, d1)
          /\ App4.calc_affordable p2 d r = Some (i2, d2)
          /\ App4.income_needed h i1 <= App4.income_needed h i2).
Proof.
  intros p1 p2 Hlt; split; [| split].
  - intros c f n h Hside.
    destruct (stress_income_mono p1 p2 c f n h Hlt Hside)
      as (i1 & i2 & H1 & H2 & Hle).
    exists i1, i2; repeat split; assumption.
  - intros d r Hd Hr; now apply simple_income_mono.
  - intros d r h Hd Hr; now apply clamped_income_mono.
Qed.

Lemma required_income_monotone_in_price_witness :
  400000 < 800000
  /\ exists i1 i2 : R,
       income_of (App7.calc_stress_test_payment 400000 0.045 true false) = Some i1
       /\ income_of (App7.calc_stress_test_payment 800000 0.045 true false) = Some i2
       /\ income_of (App5.calc_stress_test_payment 400000 0.045 true false) = Some i1
       /\ income_of (App5.calc_stress_test_payment 800000 0.045 true false) = Some i2
       /\ App7.income_needed Single i1 <= App7.income_needed Single i2.
Proof.
  split.
  - lra.
  - apply (required_income_monotone_in_price 400000 800000).
    + lra.
    + left; lra.
Defined.

(** ** The tiered down payment *)

Lemma down_payment_bands (p : R) :
  App7.calculate_down_payment p =
    if Rle_dec p 500000 then band_low p
    else if Rle_dec p 1500000 then band_mid p
    else band_high p.
Proof. reflexivity. Qed.

(** On one side of 1,500,000 the down payment moves by at most a fifth of
    the price change. *)
Lemma down_payment_lipschitz (x y : R) :
  (x <= 1500000 /\ y <= 1500000) \/ (1500000 < x /\ 1500000 < y) ->
  Rabs (App7.calculate_down_payment x - App7.calculate_down_payment y)
    <= 0.2 * Rabs (x - y).
Proof.
  intros Hside.
  rewrite !down_payment_bands; unfold band_low, band_mid, band_high.
  destruct (Rle_dec x 500000), (Rle_dec x 1500000),
           (Rle_dec y 500000), (Rle_dec y 1500000);
    try lra;
    unfold Rabs;
    repeat match goal with
           | |- context [Rcase_abs ?e] => destruct (Rcase_abs e)
           end;
    lra.
Qed.

Lemma down_payment_continuous_off_1500000 (p : R) :
  p <> 1500000 -> continuity_pt App7.calculate_down_payment p.
Proof.
  intros Hp eps Heps.
  exists (Rmin eps (Rabs (p - 1500000))); split.
  - apply Rmin_glb_lt; [lra | now apply Rabs_pos_lt; lra].
  - intros x [_ Hdist]; simpl in *; unfold R_dist in *.
    pose proof (Rmin_l eps (Rabs (p - 1500000))) as Hl.
    pose proof (Rmin_r eps (Rabs (p - 1500000))) as Hr.
    assert (Hside : (x <= 1500000 /\ p <= 1500000)
                    \/ (1500000 < x /\ 1500000 < p)).
    { revert Hdist Hr; unfold Rabs.
      destruct (Rcase_abs (x - p)), (Rcase_abs (p - 1500000)); lra. }
    pose proof (down_payment_lipschitz x p Hside) as HL.
    pose proof (Rabs_pos (x - p)).
    lra.
Qed.

Lemma down_payment_jump (p : R) :
  1500000 < p ->
  175000 < App7.calculate_down_payment p - App7.calculate_down_payment 1500000.
Proof.
  intros Hp.
  rewrite !down_payment_bands; unfold band_low, band_mid, band_high.
  destruct (Rle_dec p 500000), (Rle_dec p 1500000),
           (Rle_dec 1500000 500000), (Rle_dec 1500000 1500000); lra.
Qed.

(** C2, as stated, fails at the upper threshold: the band formulas on the
    two sides of 1,500,000 give 125,000 and 300,000 there, and the down
    payment is not continuous at that price. *)
Lemma down_payment_discontinuous_at_1500000 :
  band_mid 1500000 <> band_high 1500000
  /\ ~ continuity_pt App7.calculate_down_payment 1500000.
Proof.
  split.
  - unfold band_mid, band_high; lra.
  - intros Hc.
    destruct (Hc 1000 ltac:(lra)) as (alp & Halp & Hlim).
    specialize (Hlim (1500000 + alp / 2)).
    simpl in Hlim; unfold R_dist in Hlim.
    assert (Hd : Rabs (1500000 + alp / 2 - 1500000) < alp).
    { rewrite Rabs_right; lra. }
    assert (HD : D_x no_cond 1500000 (1500000 + alp / 2)).
    { split; [exact I | lra]. }
    specialize (Hlim (conj HD Hd)).
    pose proof (down_payment_jump (1500000 + alp / 2) ltac:(lra)) as Hj.
    rewrite Rabs_right in Hlim; lra.
Qed.

(** C2, amended.  The tiered down payment is continuous in price at the
    500,000 threshold, where the two band formulas agree (25,000), and at
    every price other than 1,500,000; above 1,500,000 it is 20% of the
    whole price, at least 175,000 more than at 1,500,000.  Within the
    tiers its slope is 0.05, then 0.10, then 0.20: non-decreasing from
    tier to tier. *)
Theorem down_payment_continuity_and_slopes :
  band_low 500000 = band_mid 500000
  /\ (forall p : R, p <> 1500000 ->
        continuity_pt App7.calculate_down_payment p
        /\ forall f n : bool,
             continuity_pt (fun q => App5.calculate_down_payment q f n) p)
  /\ (forall p : R, 1500000 < p ->
        175000 < App7.calculate_down_payment p
                 - App7.calculate_down_payment 1500000)
  /\ (forall p q : R, p <= 500000 -> q <= 500000 ->
        App7.calculate_down_payment q - App7.calculate_down_payment p
          = 0.05 * (q - p))
  /\ (forall p q : R, 500000 < p <= 1500000 -> 500000 < q <= 1500000 ->
        App7.calculate_down_payment q - App7.calculate_down_payment p
          = 0.10 * (q - p))
  /\ (forall p q : R, 1500000 < p -> 1500000 < q ->
        App7.calculate_down_payment q - App7.calculate_down_payment p
          = 0.20 * (q - p))
  /\ 0.05 <= 0.10 <= 0.20.
Proof.
  split; [unfold band_low, band_mid; lra |].
  split.
  { intros p Hp; split; [| intros f n];
      now apply down_payment_continuous_off_1500000. }
  split; [exact down_payment_jump |].
  repeat split; try lra; intros p q Hp Hq;
    rewrite !down_payment_bands; unfold band_low, band_mid, band_high;
    destruct (Rle_dec p 500000), (Rle_dec p 1500000),
             (Rle_dec q 500000), (Rle_dec q 1500000); lra.
Qed.

Lemma down_payment_continuity_and_slopes_witness :
  500000 <> 1500000
  /\ continuity_pt App7.calculate_down_payment 500000.
Proof.
  split.
  - lra.
  - apply (proj1 (proj2 down_payment_continuity_and_slopes) 500000); lra.
Defined.

(** ** The hyperbolic tangent *)

Lemma tanh_exp2 (x : R) : tanh x = 1 - 2 / (exp (2 * x) + 1).
Proof.
  unfold tanh, sinh, cosh.
  replace (2 * x) with (x + x) by ring.
  rewrite exp_plus, exp_Ropp.
  pose proof (exp_pos x) as Hx.
  assert (exp x * exp x + 1 <> 0) by nra.
  field; split; nra.
Qed.

Lemma tanh_increasing (x y : R) : x < y -> tanh x < tanh y.
Proof.
  intros Hxy; rewrite !tanh_exp2.
  assert (He : exp (2 * x) < exp (2 * y)) by (apply exp_increasing; lra).
  pose proof (exp_pos (2 * x)) as Hx.
  pose proof (exp_pos (2 * y)) as Hy.
  assert (/ (exp (2 * y) + 1) < / (exp (2 * x) + 1))
    by (apply Rinv_lt_contravar; nra).
  unfold Rdiv; lra.
Qed.

Lemma tanh_bounds (x : R) : -1 < tanh x < 1.
Proof.
  rewrite tanh_exp2.
  pose proof (exp_pos (2 * x)) as Hx.
  assert (Hi : 0 < / (exp (2 * x) + 1)) by (apply Rinv_0_lt_compat; lra).
  assert (Hi1 : / (exp (2 * x) + 1) < 1).
  { rewrite <- Rinv_1 at 2. apply Rinv_lt_contravar; lra. }
  unfold Rdiv; lra.
Qed.

(** ** The guarded distribution of app2, app4, app5 and app7 *)

Lemma sqrt_two_thirds_pos : 0 < sqrt (2 / 3).
Proof. apply sqrt_lt_R0; lra. Qed.

Lemma guarded_cdf_nonpositive (x mu sigma : R) :
  x <= 0 -> App2.lognorm_cdf x mu sigma = 0.
Proof.
  intros Hx; unfold App2.lognorm_cdf.
  destruct (Rle_dec x 0); [reflexivity | contradiction].
Qed.

Lemma guarded_cdf_positive (x mu sigma : R) :
  0 < x ->
  App2.lognorm_cdf x mu sigma
    = 0.5 * (1 + tanh (sqrt (2 / 3) * ((ln x - mu) / sigma))).
Proof.
  intros Hx; unfold App2.lognorm_cdf.
  destruct (Rle_dec x 0); [lra | reflexivity].
Qed.

Lemma guarded_cdf_open_unit (x mu sigma : R) :
  0 < x -> 0 < App2.lognorm_cdf x mu sigma < 1.
Proof.
  intros Hx; rewrite guarded_cdf_positive by exact Hx.
  pose proof (tanh_bounds (sqrt (2 / 3) * ((ln x - mu) / sigma))); lra.
Qed.

Lemma guarded_cdf_unit (x mu sigma : R) :
  0 <= App2.lognorm_cdf x mu sigma < 1.
Proof.
  destruct (Rle_dec x 0) as [Hx | Hx].
  - rewrite guarded_cdf_nonpositive by exact Hx; lra.
  - pose proof (guarded_cdf_open_unit x mu sigma ltac:(lra)); lra.
Qed.

Lemma guarded_cdf_strict (x y mu sigma : R) :
  0 < sigma -> 0 < x -> x < y ->
  App2.lognorm_cdf x mu sigma < App2.lognorm_cdf y mu sigma.
Proof.
  intros Hs Hx Hxy.
  rewrite !guarded_cdf_positive by lra.
  pose proof (ln_increasing x y Hx Hxy) as Hln.
  pose proof sqrt_two_thirds_pos as Hq.
  assert (Hz : (ln x - mu) / sigma < (ln y - mu) / sigma).
  { unfold Rdiv; apply Rmult_lt_compat_r;
      [now apply Rinv_0_lt_compat | lra]. }
  assert (Harg : sqrt (2 / 3) * ((ln x - mu) / sigma)
                 < sqrt (2 / 3) * ((ln y - mu) / sigma))
    by (apply Rmult_lt_compat_l; assumption).
  pose proof (tanh_increasing _ _ Harg); lra.
Qed.

Lemma guarded_cdf_mono (x y mu sigma : R) :
  0 < sigma -> x <= y ->
  App2.lognorm_cdf x mu sigma <= App2.lognorm_cdf y mu sigma.
Proof.
  intros Hs Hxy.
  destruct (Rle_dec x 0) as [Hx | Hx].
  - rewrite (guarded_cdf_nonpositive x) by exact Hx.
    apply guarded_cdf_unit.
  - destruct (Req_dec_T x y) as [-> | Hne]; [lra |].
    left; apply guarded_cdf_strict; lra.
Qed.

(** The survival value [max(0, 1 - cdf)] of the later variants. *)
Lemma guarded_survival_eq (income : R) :
  App7.prob income = 1 - App2.lognorm_cdf income App2.mu App2.sigma.
Proof.
  unfold App7.prob, App7.lognorm_cdf.
  pose proof (guarded_cdf_unit income App2.mu App2.sigma).
  apply py_max_right; lra.
Qed.

Lemma default_sigma_pos : 0 < App2.sigma.
Proof. unfold App2.sigma; lra. Qed.

(** The approximation shared by app2, app4, app5 and app7 is monotone
    and stays in the unit interval, and so does the survival value. *)
Lemma guarded_distribution_sound (i1 i2 : R) :
  i1 < i2 ->
  App2.lognorm_cdf i1 App2.mu App2.sigma
    <= App2.lognorm_cdf i2 App2.mu App2.sigma
  /\ 0 <= App2.lognorm_cdf i1 App2.mu App2.sigma <= 1
  /\ App7.prob i2 <= App7.prob i1
  /\ 0 <= App7.prob i1 <= 1
  /\ 0 <= App7.prob i2 <= 1.
Proof.
  intros Hlt.
  pose proof (guarded_cdf_mono i1 i2 App2.mu App2.sigma default_sigma_pos ltac:(lra)).
  pose proof (guarded_cdf_unit i1 App2.mu App2.sigma).
  pose proof (guarded_cdf_unit i2 App2.mu App2.sigma).
  rewrite !guarded_survival_eq; lra.
Qed.

(** ** The unguarded distribution of app.py *)

Lemma np_log_negative (x : R) : x < 0 -> Np.log x = NaN.
Proof.
  intros Hx; unfold Np.log.
  destruct (Rlt_dec 0 x); [lra |].
  destruct (Req_dec_T x 0); [lra | reflexivity].
Qed.

Lemma np_log_zero : Np.log 0 = NInf.
Proof.
  unfold Np.log.
  destruct (Rlt_dec 0 0); [lra |].
  destruct (Req_dec_T 0 0); [reflexivity | lra].
Qed.

Lemma np_log_positive (x : R) : 0 < x -> Np.log x = Fin (ln x).
Proof.
  intros Hx; unfold Np.log.
  destruct (Rlt_dec 0 x); [reflexivity | lra].
Qed.

Lemma np_div_fin (x y : R) : y <> 0 -> Np.div (Fin x) (Fin y) = Fin (x / y).
Proof.
  intros Hy; simpl.
  destruct (Req_dec_T y 0); [contradiction | reflexivity].
Qed.

Lemma np_div_ninf_pos (r : R) : 0 < r -> Np.div NInf (Fin r) = NInf.
Proof. intros Hr; simpl; destruct (Rlt_dec r 0); [lra | reflexivity]. Qed.

Lemma np_scale_inf_pos (b : bool) (r : R) :
  0 < r -> Np.scale_inf b r = Np.sign_inf b.
Proof.
  intros Hr; unfold Np.scale_inf.
  destruct (Rlt_dec 0 r); [reflexivity | lra].
Qed.

Lemma app1_cdf_negative (x s scale : R) :
  x < 0 -> App1.lognorm_cdf x s scale = NaN.
Proof.
  intros Hx; unfold App1.lognorm_cdf.
  rewrite np_log_negative by exact Hx.
  destruct (Np.log scale); reflexivity.
Qed.

Lemma app1_cdf_zero (s scale : R) :
  0 < s -> 0 < scale -> App1.lognorm_cdf 0 s scale = Fin 0.
Proof.
  intros Hs Hscale; unfold App1.lognorm_cdf.
  rewrite np_log_zero, np_log_positive by exact Hscale.
  cbn [Np.sub Np.neg Np.add].
  rewrite np_div_ninf_pos by exact Hs.
  cbn [Np.mul].
  rewrite np_scale_inf_pos by apply Rlt_sqrt2_0.
  cbn [Np.sign_inf Np.neg].
  rewrite !np_div_ninf_pos by lra.
  cbn [Np.tanh Np.exp Np.add Np.mul].
  f_equal; ring.
Qed.

Lemma app1_cdf_positive (x s scale : R) :
  0 < x -> 0 < scale -> s <> 0 ->
  App1.lognorm_cdf x s scale =
    let z := (ln x - ln scale) / s in
    Fin (0.5 * (1 + tanh (sqrt 2 * z / 2)
                + sqrt (2 / PI) * exp (- (z * z) / 2))).
Proof.
  intros Hx Hscale Hs; unfold App1.lognorm_cdf.
  rewrite !np_log_positive by assumption.
  cbn [Np.sub Np.neg Np.add].
  rewrite np_div_fin by exact Hs.
  cbn [Np.mul Np.neg].
  rewrite !np_div_fin by lra.
  cbn [Np.tanh Np.exp Np.add Np.mul].
  reflexivity.
Qed.

(** Numeric bounds for the value at one standard deviation. *)

Lemma exp_INR_mult (n : nat) (x : R) : exp (INR n * x) = exp x ^ n.
Proof.
  induction n as [| n IH].
  - simpl; rewrite Rmult_0_l; apply exp_0.
  - rewrite S_INR, Rmult_plus_distr_r, Rmult_1_l, exp_plus, IH.
    simpl; ring.
Qed.

Lemma exp_lower_eighth (x : R) : -8 <= x -> (1 + x / 8) ^ 8 <= exp x.
Proof.
  intros Hx.
  replace (exp x) with (exp (x / 8) ^ 8).
  - apply pow_incr; split; [lra | apply exp_ineq1_le].
  - rewrite <- exp_INR_mult; f_equal; simpl; field.
Qed.

Lemma PI_upper : PI <= 68 / 21.
Proof.
  destruct (PI_2_3_7_ineq 0) as [_ H].
  unfold sum_f_R0, tg_alt, PI_2_3_7_tg, Ratan_seq in H; simpl in H.
  lra.
Qed.

Lemma sqrt_two_over_pi_lower : 0.785 <= sqrt (2 / PI).
Proof.
  rewrite <- (sqrt_square 0.785) by lra.
  apply sqrt_le_1_alt.
  pose proof PI_RGT_0 as Hpos; pose proof PI_upper as Hup.
  assert (Hinv : / (68 / 21) <= / PI) by (apply Rinv_le_contravar; lra).
  apply Rle_trans with (2 * / (68 / 21)); [lra |].
  apply Rmult_le_compat_l; [lra | exact Hinv].
Qed.

Lemma sqrt_two_lower : 1.414 <= sqrt 2.
Proof.
  rewrite <- (sqrt_square 1.414) by lra.
  apply sqrt_le_1_alt; lra.
Qed.

Lemma tanh_half_sqrt_two_lower : 0.57 < tanh (sqrt 2 * 1 / 2).
Proof.
  rewrite tanh_exp2.
  replace (2 * (sqrt 2 * 1 / 2)) with (sqrt 2) by field.
  pose proof sqrt_two_lower as Hs.
  assert (He : 3.67 < exp (sqrt 2)).
  { apply Rlt_le_trans with ((1 + 1.414 / 8) ^ 8); [lra |].
    apply Rle_trans with (exp 1.414); [apply exp_lower_eighth; lra |].
    destruct Hs as [Hs | <-]; [left; now apply exp_increasing | right; reflexivity]. }
  assert (/ (exp (sqrt 2) + 1) < / 4.67) by (apply Rinv_lt_contravar; nra).
  unfold Rdiv; lra.
Qed.

Lemma gaussian_term_lower : 0.596 < exp (- (1 * 1) / 2).
Proof.
  apply Rlt_le_trans with ((1 + (- (1 * 1) / 2) / 8) ^ 8); [lra |].
  apply exp_lower_eighth; lra.
Qed.

(** C4.  The approximation of [app.py] leaves the unit interval: at the
    income [exp 11.4] (about 89,322, one standard deviation above the
    median of the fitted distribution) its value exceeds 1, so the
    survival value [1 - lognorm_cdf] computed from it is negative. *)
Theorem app1_cdf_exceeds_one :
  exists v : R,
    App1.lognorm_cdf (exp 11.4) App1.sigma App1.scale = Fin v
    /\ 1 < v
    /\ 1 - v < 0.
Proof.
  unfold App1.scale, App1.sigma, App1.mu.
  rewrite app1_cdf_positive by (try apply exp_pos; lra).
  cbv zeta; rewrite !ln_exp.
  replace ((11.4 - 10.45) / 0.95) with 1 by lra.
  eexists; split; [reflexivity |].
  pose proof tanh_half_sqrt_two_lower as Ht.
  pose proof gaussian_term_lower as Hg.
  pose proof sqrt_two_over_pi_lower as Hs.
  assert (0.785 * 0.596 <= sqrt (2 / PI) * exp (- (1 * 1) / 2))
    by (apply Rmult_le_compat; lra).
  split; lra.
Qed.

(** C8.  The cumulative function of [app.py] has no guard: for the
    negative income -1 it returns NaN, not 0. *)
Theorem app1_cdf_negative_income_is_nan :
  App1.lognorm_cdf (-1) App1.sigma App1.scale = NaN
  /\ App1.lognorm_cdf (-1) App1.sigma App1.scale <> Fin 0.
Proof.
  rewrite app1_cdf_negative by lra.
  split; [reflexivity | discriminate].
Qed.

(** What the variants do on non-positive incomes: the guarded function
    returns 0 (survival 1); the unguarded one returns 0 at income 0 and
    NaN below. *)
Lemma cumulative_at_nonpositive_income (x : R) :
  x <= 0 ->
  App2.lognorm_cdf x App2.mu App2.sigma = 0
  /\ App7.prob x = 1
  /\ App1.lognorm_cdf 0 App1.sigma App1.scale = Fin 0
  /\ (x < 0 -> App1.lognorm_cdf x App1.sigma App1.scale = NaN).
Proof.
  intros Hx.
  split; [now apply guarded_cdf_nonpositive |].
  split.
  { rewrite guarded_survival_eq, guarded_cdf_nonpositive by exact Hx; lra. }
  split.
  - apply app1_cdf_zero; [unfold App1.sigma; lra | apply exp_pos].
  - apply app1_cdf_negative.
Qed.

(** ** The two-property comparison *)

Lemma app7_compare_eq (price1 price2 : R) (region_data : App7.region)
    (h : household) (f n : bool) :
  App7.compare price1 price2 region_data h f n =
    let people_at price :=
      App7.people (App7.pop region_data) h
        (App7.income_needed h
           (stress_loan price
              * payment_factor
                  (Py.max 0.0525 (App7.rate region_data + 0.02) / 12)
                  (amortization_rule f n * 12)
              * 12 / 0.39)) in
    Some (people_at price1, people_at price2,
          App7.winner price1 price2 (people_at price1 - people_at price2)).
Proof.
  unfold App7.compare.
  rewrite !app7_calc_eq.
  reflexivity.
Qed.

Lemma app7_winner_spec (price1 price2 people1 people2 : R) :
  (50000 < Rabs (price1 - price2) ->
     (App7.winner price1 price2 (people1 - people2) = Property1Wins
        <-> people2 < people1)
     /\ (App7.winner price1 price2 (people1 - people2) = Property2Wins
        <-> people1 < people2)
     /\ (App7.winner price1 price2 (people1 - people2) = Tie
        <-> people1 = people2))
  /\ (Rabs (price1 - price2) <= 50000 ->
     App7.winner price1 price2 (people1 - people2) = NoVerdict).
Proof.
  unfold App7.winner.
  destruct (Rlt_dec 50000 (Rabs (price1 - price2))) as [Hgap | Hgap].
  - split; [intros _ | lra].
    destruct (Rlt_dec 0 (people1 - people2));
      [| destruct (Rlt_dec (people1 - people2) 0)];
      repeat split; intros; try discriminate; try lra; try reflexivity.
  - split; [lra | reflexivity].
Qed.

(** C9, as stated, fails in [app7.py]: for the prices 1,350,000 and
    1,550,000 (a gap of 200,000) both loans are 1,240,000, the two buyer
    counts are equal and the winner block shows a tie, so no winner is
    reported past the threshold. *)
Lemma tie_past_materiality_threshold :
  exists people : R,
    App7.compare 1350000 1550000 {| App7.rate := 0.045; App7.pop := 20000000 |}
      Single true false
    = Some (people, people, Tie)
    /\ 50000 < Rabs (1350000 - 1550000).
Proof.
  rewrite app7_compare_eq; cbv beta zeta.
  assert (Hloan : stress_loan 1350000 = stress_loan 1550000).
  { rewrite !stress_loan_values.
    destruct (Rle_dec 1350000 500000), (Rle_dec 1350000 1500000),
             (Rle_dec 1550000 500000), (Rle_dec 1550000 1500000); lra. }
  rewrite Hloan.
  assert (Hgap : 50000 < Rabs (1350000 - 1550000)).
  { rewrite Rabs_left; lra. }
  eexists; split; [| exact Hgap].
  f_equal; f_equal.
  unfold App7.winner.
  destruct (Rlt_dec 50000 (Rabs (1350000 - 1550000))); [| contradiction].
  rewrite Rminus_diag.
  destruct (Rlt_dec 0 0); [lra | reflexivity].
Qed.

Lemma app4_region_valid (name : string) (r : App4.region) :
  In (name, r) App4.REGIONS ->
  0 < App4.rate r /\ App4.down r < 1 /\ 0 < App4.pop r.
Proof.
  unfold App4.REGIONS; simpl.
  intros [H | [H | [H | [H | [H | []]]]]];
    injection H as _ <-; simpl; lra.
Qed.

(** The clamped income of the simple regime, as a function of the price. *)
Lemma app4_income_positive_strict (p1 p2 d r : R) :
  0 < p1 -> p1 < p2 -> d < 1 -> 0 < r ->
  exists i1 i2 : R,
    App4.calc_affordable p1 d r = Some (i1, p1 * d)
    /\ App4.calc_affordable p2 d r = Some (i2, p2 * d)
    /\ 0 < i1 < i2.
Proof.
  intros Hp1 Hlt Hd Hr.
  unfold App4.calc_affordable.
  rewrite !app2_calc_eq by exact Hr.
  do 2 eexists; split; [reflexivity | split; [reflexivity |]].
  pose proof (simple_factor_pos r Hr) as HK.
  set (K := payment_factor _ _) in *.
  assert (Hl1 : 0 < p1 - p1 * d) by nra.
  assert (Hl12 : p1 - p1 * d < p2 - p2 * d) by nra.
  assert (0 < (p1 - p1 * d) * K) by (apply Rmult_lt_0_compat; lra).
  assert ((p1 - p1 * d) * K < (p2 - p2 * d) * K)
    by (apply Rmult_lt_compat_r; lra).
  rewrite !py_max_right by lra.
  lra.
Qed.

Lemma app4_people_strict (region_pop : R) (h : household) (i1 i2 : R) :
  0 < region_pop -> 0 < i1 -> i1 < i2 ->
  App4.people region_pop h (App4.income_needed h i2)
    < App4.people region_pop h (App4.income_needed h i1).
Proof.
  intros Hpop Hi1 Hlt.
  unfold App4.people.
  change App4.prob with App7.prob; rewrite !guarded_survival_eq.
  assert (Hinc : 0 < App4.income_needed h i1 < App4.income_needed h i2)
    by (destruct h; simpl; lra).
  pose proof (guarded_cdf_strict _ _ App2.mu App2.sigma
                default_sigma_pos (proj1 Hinc) (proj2 Hinc)) as Hcdf.
  assert (Hm : 0 < App4.pop_mult h) by (destruct h; simpl; lra).
  apply Rmult_lt_compat_r; [exact Hm |].
  apply Rmult_lt_compat_r; [exact Hpop | lra].
Qed.

Lemma app4_winner_gap (price1 price2 people1 people2 : R) :
  (Rabs (price1 - price2) <= 50000 ->
     App4.winner price1 price2 people1 people2 = NoVerdict)
  /\ (50000 < Rabs (price1 - price2) -> people2 < people1 ->
     App4.winner price1 price2 people1 people2 = Property1Wins)
  /\ (50000 < Rabs (price1 - price2) -> people1 < people2 ->
     App4.winner price1 price2 people1 people2 = Property2Wins).
Proof.
  unfold App4.winner.
  destruct (Rlt_dec 50000 (Rabs (price1 - price2))),
           (Rlt_dec 0 (people1 - people2));
    repeat split; intros; try reflexivity; lra.
Qed.

Lemma app4_compare_sound (price1 price2 : R) (name : string)
    (r : App4.region) (h : household) :
  In (name, r) App4.REGIONS -> 0 < price1 -> 0 < price2 ->
  exists (people1 people2 : R) (v : verdict),
    App4.compare price1 price2 r h = Some (people1, people2, v)
    /\ (50000 < Rabs (price1 - price2) ->
        (v = Property1Wins /\ people2 < people1)
        \/ (v = Property2Wins /\ people1 < people2))
    /\ (Rabs (price1 - price2) <= 50000 -> v = NoVerdict).
Proof.
  intros Hin Hp1 Hp2.
  destruct (app4_region_valid name r Hin) as (Hr & Hd & Hpop).
  unfold App4.compare.
  destruct (Rtotal_order price1 price2) as [Hlt | [Heq | Hgt]].
  - destruct (app4_income_positive_strict price1 price2 _ _ Hp1 Hlt Hd Hr)
      as (i1 & i2 & -> & -> & Hi1 & Hi12).
    cbn [Py.bind fst].
    pose proof (app4_people_strict (App4.pop r) h i1 i2 Hpop Hi1 Hi12) as Hpeople.
    do 3 eexists; split; [reflexivity |].
    destruct (app4_winner_gap price1 price2
                (App4.people (App4.pop r) h (App4.income_needed h i1))
                (App4.people (App4.pop r) h (App4.income_needed h i2)))
      as (Hno & Hw1 & _).
    split; [intros Hgap; left; split; [now apply Hw1 | exact Hpeople] | exact Hno].
  - subst price2.
    destruct (app4_income_positive_strict price1 (price1 + 1) _ _
                Hp1 ltac:(lra) Hd Hr) as (i1 & _ & -> & _ & _).
    cbn [Py.bind fst].
    do 3 eexists; split; [reflexivity |].
    rewrite Rminus_diag, Rabs_R0.
    split; [lra |].
    intros _; unfold App4.winner.
    rewrite Rminus_diag, Rabs_R0.
    destruct (Rlt_dec 50000 0); [lra | reflexivity].
  - destruct (app4_income_positive_strict price2 price1 _ _ Hp2 Hgt Hd Hr)
      as (i2 & i1 & -> & -> & Hi2 & Hi21).
    cbn [Py.bind fst].
    pose proof (app4_people_strict (App4.pop r) h i2 i1 Hpop Hi2 Hi21) as Hpeople.
    do 3 eexists; split; [reflexivity |].
    destruct (app4_winner_gap price1 price2
                (App4.people (App4.pop r) h (App4.income_needed h i1))
                (App4.people (App4.pop r) h (App4.income_needed h i2)))
      as (Hno & _ & Hw2).
    split; [intros Hgap; right; split; [now apply Hw2 | exact Hpeople] | exact Hno].
Qed.

(** C9, amended.  When the absolute price difference exceeds 50,000,
    [app7.py] reports property 1 as the winner exactly when its buyer
    count is strictly larger, property 2 exactly when its count is
    strictly larger, and a tie (no winner) exactly when the two counts are
    equal; [app4.py], for positive prices and a region of its catalog,
    reports exactly one winner, the property with the strictly larger
    count.  When the absolute price difference is at or below 50,000, no
    winner is reported. *)
Theorem winner_follows_buyer_counts :
  forall (price1 price2 : R) (h : household),
    (forall (region_data : App7.region) (f n : bool),
        exists (people1 people2 : R) (v : verdict),
          App7.compare price1 price2 region_data h f n
            = Some (people1, people2, v)
          /\ (50000 < Rabs (price1 - price2) ->
              (v = Property1Wins <-> people2 < people1)
              /\ (v = Property2Wins <-> people1 < people2)
              /\ (v = Tie <-> people1 = people2))
          /\ (Rabs (price1 - price2) <= 50000 -> v = NoVerdict))
    /\ (forall (name : string) (r : App4.region),
        In (name, r) App4.REGIONS -> 0 < price1 -> 0 < price2 ->
        exists (people1 people2 : R) (v : verdict),
          App4.compare price1 price2 r h = Some (people1, people2, v)
          /\ (50000 < Rabs (price1 - price2) ->
              (v = Property1Wins /\ people2 < people1)
              \/ (v = Property2Wins /\ people1 < people2))
          /\ (Rabs (price1 - price2) <= 50000 -> v = NoVerdict)).
Proof.
  intros price1 price2 h; split.
  - intros region_data f n.
    rewrite app7_compare_eq; cbv beta zeta.
    do 3 eexists; split; [reflexivity |].
    apply app7_winner_spec.
  - intros name r; apply app4_compare_sound.
Qed.

Lemma winner_follows_buyer_counts_witness :
  In ("National"%string,
      {| App4.down := 0.05; App4.rate := 0.045; App4.pop := 20000000 |})
     App4.REGIONS
  /\ 0 < 800000 /\ 0 < 1000000
  /\ exists (people1 people2 : R) (v : verdict),
       App4.compare 800000 1000000
         {| App4.down := 0.05; App4.rate := 0.045; App4.pop := 20000000 |}
         Single
         = Some (people1, people2, v)
       /\ (50000 < Rabs (800000 - 1000000) ->
           (v = Property1Wins /\ people2 < people1)
           \/ (v = Property2Wins /\ people1 < people2))
       /\ (Rabs (800000 - 1000000) <= 50000 -> v = NoVerdict).
Proof.
  split; [left; reflexivity |].
  split; [lra |].
  split; [lra |].
  apply (proj2 (winner_follows_buyer_counts 800000 1000000 Single)
           "National"%string).
  - left; reflexivity.
  - lra.
  - lra.
Defined.

(** * Further properties of the mortgage engine *)

(** X1.  For a non-negative price the tiered down payment lies between 5%
    and 20% of the price, so it never exceeds the price and the loan is
    between 80% and 95% of the price, never negative. *)
Theorem down_payment_between_5_and_20_percent :
  forall price : R, 0 <= price ->
    0.05 * price <= App7.calculate_down_payment price <= 0.20 * price
    /\ App7.calculate_down_payment price <= price
    /\ 0.80 * price <= price - App7.calculate_down_payment price <= 0.95 * price
    /\ forall f n : bool,
         App5.calculate_down_payment price f n
           = App7.calculate_down_payment price.
Proof.
  intros price Hp.
  assert (H : 0.05 * price <= App7.calculate_down_payment price <= 0.20 * price).
  { rewrite down_payment_bands; unfold band_low, band_mid, band_high.
    destruct (Rle_dec price 500000), (Rle_dec price 1500000); lra. }
  repeat split; try lra; reflexivity.
Qed.

Lemma down_payment_between_5_and_20_percent_witness :
  0 <= 800000
  /\ 0.05 * 800000 <= App7.calculate_down_payment 800000 <= 0.20 * 800000.
Proof.
  split.
  - lra.
  - apply (down_payment_between_5_and_20_percent 800000); lra.
Defined.

(** X2.  The tiered down payment never decreases when the price rises,
    the step at 1,500,000 included. *)
Theorem down_payment_nondecreasing :
  forall p1 p2 : R, p1 <= p2 ->
    App7.calculate_down_payment p1 <= App7.calculate_down_payment p2.
Proof.
  intros p1 p2 Hle.
  rewrite !down_payment_bands; unfold band_low, band_mid, band_high.
  destruct (Rle_dec p1 500000), (Rle_dec p1 1500000),
           (Rle_dec p2 500000), (Rle_dec p2 1500000); lra.
Qed.

Lemma down_payment_nondecreasing_witness :
  1500000 <= 1500001
  /\ App7.calculate_down_payment 1500000 <= App7.calculate_down_payment 1500001.
Proof.
  split.
  - lra.
  - apply (down_payment_nondecreasing 1500000 1500001); lra.
Defined.

Lemma stress_loan_sign (price : R) : 0 < stress_loan price <-> 0 < price.
Proof.
  rewrite stress_loan_values.
  destruct (Rle_dec price 500000), (Rle_dec price 1500000); split; lra.
Qed.

(** X3.  Whenever [calc_stress_test_payment] returns, in [app5.py] as in
    [app7.py], the stress rate of the result is at least 0.0525 and at
    least the contract rate plus 0.02, the down payment is the tiered
    one, and the required income is positive exactly when the price is. *)
Theorem stress_payment_result_signs :
  forall (price c : R) (f n : bool)
         (income down_payment stress_rate : R) (years : nat),
    App7.calc_stress_test_payment price c f n
      = Some (income, down_payment, stress_rate, years)
    \/ App5.calc_stress_test_payment price c f n
      = Some (income, down_payment, stress_rate, years) ->
    0.0525 <= stress_rate
    /\ c + 0.02 <= stress_rate
    /\ down_payment = App7.calculate_down_payment price
    /\ (0 < income <-> 0 < price).
Proof.
  intros price c f n income down_payment stress_rate years Hret.
  assert (Hret7 : App7.calc_stress_test_payment price c f n
                  = Some (income, down_payment, stress_rate, years))
    by (destruct Hret as [H | H]; exact H).
  rewrite app7_calc_eq in Hret7.
  injection Hret7 as <- <- <- _.
  split; [apply stress_rate_floor |].
  split; [unfold Py.max; destruct (Rlt_dec 0.0525 (c + 0.02)); lra |].
  split; [reflexivity |].
  pose proof (stress_factor_pos c f n) as HK.
  pose proof (stress_loan_sign price) as Hs.
  set (K := payment_factor _ _) in *.
  set (L := stress_loan price) in *.
  split; intros H.
  - apply Hs. destruct (Rlt_dec 0 L) as [HL | HL]; [exact HL |].
    assert (L * K <= 0) by nra. lra.
  - assert (0 < L * K) by (apply Rmult_lt_0_compat; [now apply Hs | exact HK]).
    lra.
Qed.

Lemma stress_payment_result_signs_witness :
  exists (income down_payment stress_rate : R) (years : nat),
    App7.calc_stress_test_payment 800000 0.045 true false
      = Some (income, down_payment, stress_rate, years)
    /\ 0.0525 <= stress_rate
    /\ 0.045 + 0.02 <= stress_rate
    /\ down_payment = App7.calculate_down_payment 800000
    /\ (0 < income <-> 0 < 800000).
Proof.
  do 4 eexists; split.
  - apply app7_calc_eq.
  - apply (stress_payment_result_signs 800000 0.045 true false _ _ _ _
             (or_introl (app7_calc_eq 800000 0.045 true false))).
Defined.

Lemma simple_denominator_zero (rate : R) :
  rate = 0 \/ rate = -24 -> (1 + rate / 12) ^ (25 * 12) - 1 = 0.
Proof.
  intros [-> | ->].
  - replace (1 + 0 / 12) with 1 by lra. rewrite pow1; ring.
  - replace (1 + -24 / 12) with (-1) by lra.
    change (25 * 12)%nat with (2 * 150)%nat.
    rewrite pow_1_even; ring.
Qed.

(** X4.  In the simple regime [calc_affordable] raises (division by zero)
    for every price and down rate when the contract rate is 0, and also
    when it is -24, where [1 + rate/12] is -1 and the even power 300
    brings it back to 1. *)
Theorem simple_payment_raises_at_rates_0_and_minus_24 :
  forall price down_pct rate : R,
    rate = 0 \/ rate = -24 ->
    App1.calc_affordable price down_pct rate = None
    /\ App2.calc_affordable price down_pct rate = None.
Proof.
  intros price down_pct rate Hrate.
  pose proof (simple_denominator_zero rate Hrate) as Hz.
  unfold App1.calc_affordable, App2.calc_affordable, monthly_payment_formula.
  rewrite Hz, !py_div_zero.
  split; reflexivity.
Qed.

Lemma simple_payment_raises_at_rates_0_and_minus_24_witness :
  (-24 = 0 \/ -24 = -24)
  /\ App1.calc_affordable 800000 0.05 (-24) = None
  /\ App2.calc_affordable 800000 0.05 (-24) = None.
Proof.
  split.
  - right; reflexivity.
  - apply (simple_payment_raises_at_rates_0_and_minus_24 800000 0.05 (-24)).
    right; reflexivity.
Defined.

(** ** The payment factor and the value of the annuity *)

Lemma discount_bounds (r : R) : 0 < r -> 0 < / (1 + r) < 1.
Proof.
  intros Hr; split.
  - apply Rinv_0_lt_compat; lra.
  - rewrite <- Rinv_1 at 2. apply Rinv_lt_contravar; lra.
Qed.

Lemma annuity_value_step (r : R) (n : nat) :
  0 < r ->
  annuity_value r (S n) = annuity_value r n + (/ (1 + r)) ^ S n.
Proof.
  intros Hr; unfold annuity_value; simpl.
  generalize ((/ (1 + r)) ^ n); intros Q.
  field; lra.
Qed.

Lemma annuity_value_le_periods (r : R) (n : nat) :
  0 < r -> 0 <= annuity_value r n <= INR n.
Proof.
  intros Hr; induction n as [| n IH].
  - unfold annuity_value; simpl; lra.
  - rewrite annuity_value_step, S_INR by exact Hr.
    pose proof (discount_bounds r Hr) as Hq.
    pose proof (pow_lt_1_compat (/ (1 + r)) (S n) ltac:(lra) ltac:(lia)).
    lra.
Qed.

Lemma annuity_value_pos (r : R) (n : nat) :
  0 < r -> (0 < n)%nat -> 0 < annuity_value r n < / r.
Proof.
  intros Hr Hn; unfold annuity_value.
  pose proof (discount_bounds r Hr) as Hq.
  pose proof (pow_lt_1_compat (/ (1 + r)) n ltac:(lra) Hn) as Hp.
  assert (0 < (/ (1 + r)) ^ n) by (apply pow_lt; lra).
  assert (0 < / r) by now apply Rinv_0_lt_compat.
  unfold Rdiv; split; nra.
Qed.

Lemma payment_factor_inverse (r : R) (n : nat) :
  0 < r -> (0 < n)%nat -> payment_factor r n = / annuity_value r n.
Proof.
  intros Hr Hn; unfold payment_factor, annuity_value.
  rewrite pow_inv.
  pose proof (growth_minus_one_pos r n Hr Hn) as Hd.
  generalize dependent ((1 + r) ^ n); intros a Hd.
  field; repeat split; lra.
Qed.

Lemma annuity_value_antitone_rate (r s : R) (n : nat) :
  0 < r -> r <= s -> annuity_value s n <= annuity_value r n.
Proof.
  intros Hr Hrs; induction n as [| n IH].
  - unfold annuity_value; simpl; lra.
  - rewrite !annuity_value_step by lra.
    assert (Hq : 0 <= / (1 + s) <= / (1 + r)).
    { split; [left; apply Rinv_0_lt_compat; lra |].
      apply Rinv_le_contravar; lra. }
    pose proof (pow_incr _ _ (S n) Hq); lra.
Qed.

Lemma annuity_value_grows_with_term (r : R) (n m : nat) :
  0 < r -> (n < m)%nat -> annuity_value r n < annuity_value r m.
Proof.
  intros Hr Hnm; unfold annuity_value.
  rewrite !pow_inv.
  assert (Hpow : (1 + r) ^ n < (1 + r) ^ m) by (apply Rlt_pow; [lra | exact Hnm]).
  assert (0 < (1 + r) ^ n) by (apply pow_lt; lra).
  assert (/ (1 + r) ^ m < / (1 + r) ^ n)
    by (apply Rinv_lt_contravar; [apply Rmult_lt_0_compat; lra | exact Hpow]).
  apply Rmult_lt_compat_r; [now apply Rinv_0_lt_compat | lra].
Qed.

Lemma payment_factor_monotone_rate (r s : R) (n : nat) :
  0 < r -> r <= s -> (0 < n)%nat -> payment_factor r n <= payment_factor s n.
Proof.
  intros Hr Hrs Hn.
  rewrite !payment_factor_inverse by (lra || exact Hn).
  apply Rinv_le_contravar;
    [apply annuity_value_pos; [lra | exact Hn]
    | now apply annuity_value_antitone_rate].
Qed.

Lemma payment_factor_falls_with_term (r : R) (n m : nat) :
  0 < r -> (0 < n)%nat -> (n < m)%nat -> payment_factor r m < payment_factor r n.
Proof.
  intros Hr Hn Hnm.
  rewrite !payment_factor_inverse by (lra || lia).
  pose proof (annuity_value_pos r n Hr Hn) as Hvn.
  pose proof (annuity_value_grows_with_term r n m Hr Hnm) as Hlt.
  apply Rinv_lt_contravar; [apply Rmult_lt_0_compat; lra | exact Hlt].
Qed.

(** X5.  For a positive loan, a positive periodic rate and at least one
    payment, the level payment is larger than one period of interest on
    the loan, and the payments together exceed the loan. *)
Theorem payment_covers_interest_and_principal :
  forall (loan r : R) (n : nat),
    0 < loan -> 0 < r -> (0 < n)%nat ->
    exists m : R,
      monthly_payment_formula loan r n = Some m
      /\ loan * r < m
      /\ loan < m * INR n.
Proof.
  intros loan r n Hloan Hr Hn.
  rewrite monthly_payment_formula_pos_rate by assumption.
  eexists; split; [reflexivity |].
  rewrite payment_factor_inverse by assumption.
  pose proof (annuity_value_pos r n Hr Hn) as [Hpos Hlt].
  assert (Hle : annuity_value r n < INR n).
  { destruct n as [| k]; [lia |].
    rewrite annuity_value_step, S_INR by exact Hr.
    pose proof (annuity_value_le_periods r k Hr).
    pose proof (discount_bounds r Hr) as Hq.
    pose proof (pow_lt_1_compat (/ (1 + r)) (S k) ltac:(lra) ltac:(lia)).
    lra. }
  set (V := annuity_value r n) in *.
  assert (HinvV : 0 < / V) by now apply Rinv_0_lt_compat.
  assert (HVV : V * / V = 1) by (apply Rinv_r; lra).
  assert (Hrr : r * / r = 1) by (apply Rinv_r; lra).
  split.
  - assert (r < / V) by nra. nra.
  - assert (1 < / V * INR n) by nra. nra.
Qed.

Lemma payment_covers_interest_and_principal_witness :
  0 < 760000 /\ 0 < 0.045 / 12 /\ (0 < 25 * 12)%nat
  /\ exists m : R,
       monthly_payment_formula 760000 (0.045 / 12) (25 * 12) = Some m
       /\ 760000 * (0.045 / 12) < m
       /\ 760000 < m * INR (25 * 12).
Proof.
  split; [lra |].
  split; [lra |].
  split; [simpl; lia |].
  apply (payment_covers_interest_and_principal 760000 (0.045 / 12) (25 * 12)).
  - lra.
  - lra.
  - simpl; lia.
Defined.

Lemma stress_rate_monotone (c1 c2 : R) :
  c1 <= c2 ->
  Py.max 0.0525 (c1 + 0.02) <= Py.max 0.0525 (c2 + 0.02).
Proof. intros Hc; apply py_max_mono; lra. Qed.

(** X6.  In the stress-tested regime, for a non-negative price and fixed
    flags, the required income never decreases when the contract rate
    rises, and it does not move at all while the contract rate stays at or
    below 3.25% (the 5.25% floor binds). *)
Theorem required_income_monotone_in_rate :
  forall (price c1 c2 : R) (f n : bool),
    0 <= price -> c1 <= c2 ->
    exists i1 i2 : R,
      income_of (App7.calc_stress_test_payment price c1 f n) = Some i1
      /\ income_of (App7.calc_stress_test_payment price c2 f n) = Some i2
      /\ income_of (App5.calc_stress_test_payment price c1 f n) = Some i1
      /\ income_of (App5.calc_stress_test_payment price c2 f n) = Some i2
      /\ i1 <= i2
      /\ (c2 <= 0.0325 -> i1 = i2).
Proof.
  intros price c1 c2 f n Hp Hc.
  rewrite ?app5_calc_eq, ?app7_calc_eq; cbn [income_of option_map fst].
  do 2 eexists; repeat (split; [reflexivity |]).
  assert (HL : 0 <= stress_loan price).
  { rewrite stress_loan_values.
    destruct (Rle_dec price 500000), (Rle_dec price 1500000); lra. }
  split.
  - pose proof (stress_rate_monotone c1 c2 Hc) as Hs.
    pose proof (stress_rate_floor c1) as Hf.
    pose proof (payment_factor_monotone_rate
                  (Py.max 0.0525 (c1 + 0.02) / 12)
                  (Py.max 0.0525 (c2 + 0.02) / 12)
                  (amortization_rule f n * 12)
                  ltac:(lra) ltac:(lra) (amortization_rule_pos f n)) as HK.
    set (K1 := payment_factor (Py.max 0.0525 (c1 + 0.02) / 12) _) in *.
    set (K2 := payment_factor (Py.max 0.0525 (c2 + 0.02) / 12) _) in *.
    assert (stress_loan price * K1 <= stress_loan price * K2)
      by (apply Rmult_le_compat_l; assumption).
    lra.
  - intros Hlow.
    rewrite !(py_max_left 0.0525) by lra.
    reflexivity.
Qed.

Lemma required_income_monotone_in_rate_witness :
  0 <= 800000 /\ 0.043 <= 0.049
  /\ exists i1 i2 : R,
       income_of (App7.calc_stress_test_payment 800000 0.043 true false) = Some i1
       /\ income_of (App7.calc_stress_test_payment 800000 0.049 true false) = Some i2
       /\ income_of (App5.calc_stress_test_payment 800000 0.043 true false) = Some i1
       /\ income_of (App5.calc_stress_test_payment 800000 0.049 true false) = Some i2
       /\ i1 <= i2
       /\ (0.049 <= 0.0325 -> i1 = i2).
Proof.
  split; [lra |].
  split; [lra |].
  apply (required_income_monotone_in_rate 800000 0.043 0.049 true false); lra.
Defined.

(** X7.  In the stress-tested regime, for a positive price and a fixed
    contract rate, a first-time buyer or a new construction (30-year
    amortization) needs strictly less income than a standard purchase
    (25 years), with the same down payment and the same stress rate. *)
Theorem longer_amortization_needs_less_income :
  forall (price c : R) (f n : bool),
    0 < price -> f || n = true ->
    exists i30 i25 d s : R,
      App7.calc_stress_test_payment price c f n = Some (i30, d, s, 30%nat)
      /\ App7.calc_stress_test_payment price c false false
         = Some (i25, d, s, 25%nat)
      /\ App5.calc_stress_test_payment price c f n = Some (i30, d, s, 30%nat)
      /\ App5.calc_stress_test_payment price c false false
         = Some (i25, d, s, 25%nat)
      /\ i30 < i25.
Proof.
  intros price c f n Hp Hflag.
  rewrite ?app5_calc_eq, ?app7_calc_eq.
  unfold amortization_rule; rewrite Hflag; cbn [orb].
  do 4 eexists; repeat (split; [reflexivity |]).
  pose proof (proj2 (stress_loan_sign price) Hp) as HL.
  pose proof (payment_factor_falls_with_term
                (Py.max 0.0525 (c + 0.02) / 12) (25 * 12) (30 * 12)
                (stress_monthly_rate_pos c) ltac:(lia) ltac:(lia)) as HK.
  set (K30 := payment_factor _ (30 * 12)) in *.
  set (K25 := payment_factor _ (25 * 12)) in *.
  assert (stress_loan price * K30 < stress_loan price * K25)
    by (apply Rmult_lt_compat_l; assumption).
  lra.
Qed.

Lemma longer_amortization_needs_less_income_witness :
  0 < 800000 /\ true || false = true
  /\ exists i30 i25 d s : R,
       App7.calc_stress_test_payment 800000 0.045 true false = Some (i30, d, s, 30%nat)
       /\ App7.calc_stress_test_payment 800000 0.045 false false
          = Some (i25, d, s, 25%nat)
       /\ App5.calc_stress_test_payment 800000 0.045 true false = Some (i30, d, s, 30%nat)
       /\ App5.calc_stress_test_payment 800000 0.045 false false
          = Some (i25, d, s, 25%nat)
       /\ i30 < i25.
Proof.
  split; [lra |].
  split; [reflexivity |].
  apply (longer_amortization_needs_less_income 800000 0.045 true false).
  - lra.
  - reflexivity.
Defined.

(** X8.  The clamp [max(0, ...)] that [app2.py] and [app4.py] put on the
    required income changes nothing while the loan is non-negative: there
    the function agrees with the one of [app.py].  With a negative loan
    (a down rate above 1 on a positive price) [app.py] returns a negative
    income and the later variants return 0. *)
Theorem income_clamp_only_for_negative_loans :
  forall price down_pct rate : R,
    0 < rate ->
    (0 <= price - price * down_pct ->
       App2.calc_affordable price down_pct rate
         = App1.calc_affordable price down_pct rate)
    /\ (price - price * down_pct < 0 ->
        App2.calc_affordable price down_pct rate = Some (0, price * down_pct)
        /\ exists i : R,
             App1.calc_affordable price down_pct rate
               = Some (i, price * down_pct)
             /\ i < 0).
Proof.
  intros price down_pct rate Hr.
  rewrite app1_calc_eq, app2_calc_eq by exact Hr.
  unfold App1.loan_amount.
  pose proof (simple_factor_pos rate Hr) as HK.
  set (K := payment_factor _ _) in *.
  split; intros Hl.
  - assert (0 <= (price - price * down_pct) * K)
      by (apply Rmult_le_pos; lra).
    unfold Py.max.
    destruct (Rlt_dec 0 ((price - price * down_pct) * K * 12 / 0.28));
      [reflexivity | do 2 f_equal; lra].
  - assert ((price - price * down_pct) * K < 0) by nra.
    split.
    + rewrite py_max_left by lra. reflexivity.
    + eexists; split; [reflexivity | lra].
Qed.

Lemma income_clamp_only_for_negative_loans_witness :
  0 < 0.045
  /\ 0 <= 800000 - 800000 * 0.05
  /\ App2.calc_affordable 800000 0.05 0.045
       = App1.calc_affordable 800000 0.05 0.045.
Proof.
  split; [lra |].
  split; [lra |].
  apply (income_clamp_only_for_negative_loans 800000 0.05 0.045); lra.
Defined.

(** * Further properties of the income distribution *)

Lemma tanh_odd (x : R) : tanh (- x) = - tanh x.
Proof.
  unfold tanh, sinh, cosh.
  rewrite Ropp_involutive.
  pose proof (exp_pos x); pose proof (exp_pos (- x)).
  field; lra.
Qed.

Lemma tanh_zero : tanh 0 = 0.
Proof.
  pose proof (tanh_odd 0) as H.
  rewrite Ropp_0 in H; lra.
Qed.

(** X9.  With the default parameters the guarded approximation puts half
    of the population below the median income [e^mu], and it is symmetric
    in the logarithm of income: the share below [e^(mu+t)] and the share
    below [e^(mu-t)] add up to 1. *)
Theorem guarded_cdf_symmetric_about_median :
  App2.lognorm_cdf (exp App2.mu) App2.mu App2.sigma = 0.5
  /\ forall t : R,
       App2.lognorm_cdf (exp (App2.mu + t)) App2.mu App2.sigma
       + App2.lognorm_cdf (exp (App2.mu - t)) App2.mu App2.sigma = 1.
Proof.
  assert (Hsym : forall t : R,
             App2.lognorm_cdf (exp (App2.mu + t)) App2.mu App2.sigma
             + App2.lognorm_cdf (exp (App2.mu - t)) App2.mu App2.sigma = 1).
  { intros t.
    rewrite !guarded_cdf_positive by apply exp_pos.
    rewrite !ln_exp.
    replace (sqrt (2 / 3) * ((App2.mu - t - App2.mu) / App2.sigma))
      with (- (sqrt (2 / 3) * ((App2.mu + t - App2.mu) / App2.sigma)))
      by (unfold App2.sigma; field; lra).
    rewrite tanh_odd; lra. }
  split; [| exact Hsym].
  specialize (Hsym 0).
  rewrite Rplus_0_r, Rminus_0_r in Hsym; lra.
Qed.

(** X10.  The clamp [max(0, 1 - lognorm_cdf(income))] of app4, app5 and
    app7 is never active: the survival value is exactly one minus the
    cumulative value, it is positive and at most 1, and it is 1 exactly
    for non-positive incomes. *)
Theorem survival_is_complement :
  forall income : R,
    App7.prob income = 1 - App2.lognorm_cdf income App2.mu App2.sigma
    /\ App5.prob income = App7.prob income
    /\ App4.prob income = App7.prob income
    /\ 0 < App7.prob income <= 1
    /\ (App7.prob income = 1 <-> income <= 0).
Proof.
  intros income.
  pose proof (guarded_survival_eq income) as Heq.
  pose proof (guarded_cdf_unit income App2.mu App2.sigma) as Hu.
  repeat split; try reflexivity; try lra.
  - intros H1.
    destruct (Rle_dec income 0) as [Hle | Hgt]; [exact Hle |].
    pose proof (guarded_cdf_open_unit income App2.mu App2.sigma ltac:(lra)).
    lra.
  - intros Hle.
    rewrite Heq, guarded_cdf_nonpositive by exact Hle; lra.
Qed.

Lemma pop_mult_bounds (h : household) : 0 < App7.pop_mult h <= 0.6.
Proof. destruct h; simpl; lra. Qed.

(** X11.  For a non-negative regional population the estimated number of
    buyers lies between 0 and the household share of the population (40%
    for singles, 60% for couples), and the displayed percentage lies
    between 0 and 100. *)
Theorem buyer_count_within_household_share :
  forall (region_pop income : R) (h : household),
    0 <= region_pop ->
    0 <= App7.people region_pop h income <= region_pop * App7.pop_mult h
    /\ App7.people region_pop h income <= 0.6 * region_pop
    /\ 0 < App7.prob income * 100 <= 100
    /\ App5.people region_pop h income = App7.people region_pop h income
    /\ App4.people region_pop h income = App7.people region_pop h income.
Proof.
  intros region_pop income h Hpop.
  pose proof (guarded_survival_eq income) as Heq.
  pose proof (guarded_cdf_unit income App2.mu App2.sigma) as Hu.
  pose proof (pop_mult_bounds h) as Hm.
  unfold App7.people.
  set (P := App7.prob income) in *.
  set (M := App7.pop_mult h) in *.
  assert (HP : 0 < P <= 1) by lra.
  assert (0 <= P * region_pop <= region_pop) by nra.
  repeat split; try reflexivity; try nra.
Qed.

Lemma buyer_count_within_household_share_witness :
  0 <= 20000000
  /\ 0 <= App7.people 20000000 Single 150000 <= 20000000 * App7.pop_mult Single.
Proof.
  split.
  - lra.
  - apply (buyer_count_within_household_share 20000000 150000 Single); lra.
Defined.

(** X12.  In app4, app5 and app7, for a positive single-earner income and
    a positive population, the couple household always has strictly more
    estimated buyers than the single household: its required income is
    25% lower and its population share is 60% against 40%. *)
Theorem couples_outnumber_singles :
  forall region_pop income_single : R,
    0 < region_pop -> 0 < income_single ->
    App7.income_needed Couple income_single
      < App7.income_needed Single income_single
    /\ App7.prob (App7.income_needed Single income_single)
       < App7.prob (App7.income_needed Couple income_single)
    /\ App7.people region_pop Single (App7.income_needed Single income_single)
       < App7.people region_pop Couple (App7.income_needed Couple income_single)
    /\ App5.people region_pop Single (App5.income_needed Single income_single)
       < App5.people region_pop Couple (App5.income_needed Couple income_single)
    /\ App4.people region_pop Single (App4.income_needed Single income_single)
       < App4.people region_pop Couple (App4.income_needed Couple income_single).
Proof.
  intros region_pop i Hpop Hi.
  assert (Hinc : App7.income_needed Couple i < App7.income_needed Single i)
    by (simpl; lra).
  assert (Hprob : App7.prob (App7.income_needed Single i)
                  < App7.prob (App7.income_needed Couple i)).
  { rewrite !guarded_survival_eq.
    pose proof (guarded_cdf_strict (App7.income_needed Couple i)
                  (App7.income_needed Single i) App2.mu App2.sigma
                  default_sigma_pos ltac:(simpl; lra) Hinc).
    lra. }
  assert (Hpeople :
            App7.people region_pop Single (App7.income_needed Single i)
            < App7.people region_pop Couple (App7.income_needed Couple i)).
  { unfold App7.people; simpl App7.pop_mult.
    pose proof (guarded_survival_eq (App7.income_needed Single i)) as E1.
    pose proof (guarded_cdf_unit (App7.income_needed Single i)
                  App2.mu App2.sigma) as U1.
    set (Ps := App7.prob (App7.income_needed Single i)) in *.
    set (Pc := App7.prob (App7.income_needed Couple i)) in *.
    assert (Ps * region_pop < Pc * region_pop)
      by (apply Rmult_lt_compat_r; assumption).
    assert (0 < Ps * region_pop) by (apply Rmult_lt_0_compat; lra).
    lra. }
  repeat split; assumption.
Qed.

Lemma couples_outnumber_singles_witness :
  0 < 20000000 /\ 0 < 150000
  /\ App7.people 20000000 Single (App7.income_needed Single 150000)
     < App7.people 20000000 Couple (App7.income_needed Couple 150000).
Proof.
  split; [lra |].
  split; [lra |].
  apply (couples_outnumber_singles 20000000 150000); lra.
Defined.

(** * Further properties of the scripts *)

Lemma app2_region_valid (name : string) (r : App2.region) :
  In (name, r) App2.REGIONS ->
  0 < App2.rate r /\ App2.down r < 1 /\ 0 < App2.pop r.
Proof.
  unfold App2.REGIONS; simpl.
  intros [H | [H | [H | [H | [H | []]]]]];
    injection H as _ <-; simpl; lra.
Qed.

Lemma app2_income_positive (price d r : R) :
  0 < price -> d < 1 -> 0 < r ->
  exists i : R,
    App2.calc_affordable price d r = Some (i, price * d) /\ 0 < i.
Proof.
  intros Hp Hd Hr.
  destruct (app4_income_positive_strict price (price + 1) d r
              Hp ltac:(lra) Hd Hr) as (i & _ & Hi & _ & Hpos & _).
  exists i; split; [exact Hi | exact Hpos].
Qed.

(** X13.  In [app2.py], for a positive price and a region of the catalog,
    the couple household is given 65% of the single-earner income as its
    required income and is looked up in the distribution at 91% of the
    single-earner income, so its probability is strictly larger; its
    buyer count is taken on 60% of the population while the single-earner
    count is taken on the whole population. *)
Theorem app2_household_panel :
  forall (price : R) (name : string) (r : App2.region),
    In (name, r) App2.REGIONS -> 0 < price ->
    exists i prob_single prob_couple : R,
      App2.main_panel price r Single
        = Some (i, price * App2.down r, prob_single,
                prob_single * App2.pop r, prob_single * 100)
      /\ App2.main_panel price r Couple
        = Some (i * 0.65, price * App2.down r, prob_couple,
                prob_couple * App2.pop r * 0.6, prob_couple * 100)
      /\ 0 < i
      /\ prob_single = 1 - App2.lognorm_cdf i App2.mu App2.sigma
      /\ prob_couple = 1 - App2.lognorm_cdf (0.91 * i) App2.mu App2.sigma
      /\ 0 < prob_single < prob_couple.
Proof.
  intros price name r Hin Hp.
  destruct (app2_region_valid name r Hin) as (Hr & Hd & Hpop).
  destruct (app2_income_positive price _ _ Hp Hd Hr) as (i & Hcalc & Hi).
  unfold App2.main_panel; rewrite Hcalc; cbn [Py.bind fst snd].
  pose proof (guarded_survival_eq i) as Es.
  pose proof (guarded_survival_eq (i * 0.65 * 1.4)) as Ec.
  unfold App7.prob, App7.lognorm_cdf in Es, Ec.
  rewrite Es, Ec.
  replace (i * 0.65 * 1.4) with (0.91 * i) by lra.
  do 3 eexists; repeat (split; [reflexivity |]).
  split; [exact Hi |].
  split; [reflexivity |].
  split; [reflexivity |].
  pose proof (guarded_cdf_strict (0.91 * i) i App2.mu App2.sigma
                default_sigma_pos ltac:(lra) ltac:(lra)).
  pose proof (guarded_cdf_unit i App2.mu App2.sigma).
  lra.
Qed.

Lemma app2_household_panel_witness :
  In ("Quebec"%string,
      {| App2.down := 0.03; App2.rate := 0.044; App2.pop := 9000000 |})
     App2.REGIONS
  /\ 0 < 800000
  /\ exists i prob_single prob_couple : R,
       App2.main_panel 800000
         {| App2.down := 0.03; App2.rate := 0.044; App2.pop := 9000000 |} Single
         = Some (i, 800000 * 0.03, prob_single,
                 prob_single * 9000000, prob_single * 100)
       /\ App2.main_panel 800000
         {| App2.down := 0.03; App2.rate := 0.044; App2.pop := 9000000 |} Couple
         = Some (i * 0.65, 800000 * 0.03, prob_couple,
                 prob_couple * 9000000 * 0.6, prob_couple * 100)
       /\ 0 < i
       /\ prob_single = 1 - App2.lognorm_cdf i App2.mu App2.sigma
       /\ prob_couple = 1 - App2.lognorm_cdf (0.91 * i) App2.mu App2.sigma
       /\ 0 < prob_single < prob_couple.
Proof.
  split; [do 4 right; left; reflexivity |].
  split; [lra |].
  apply (app2_household_panel 800000 "Quebec"%string
           {| App2.down := 0.03; App2.rate := 0.044; App2.pop := 9000000 |}).
  - do 4 right; left; reflexivity.
  - lra.
Defined.

Lemma app7_people_strict (region_pop : R) (h : household) (i1 i2 : R) :
  0 < region_pop -> 0 < i1 -> i1 < i2 ->
  App7.people region_pop h (App7.income_needed h i2)
    < App7.people region_pop h (App7.income_needed h i1).
Proof. exact (app4_people_strict region_pop h i1 i2). Qed.

Lemma stress_income_strict (l1 l2 c : R) (f n : bool) :
  0 < l1 -> l1 < l2 ->
  0 < l1 * payment_factor (Py.max 0.0525 (c + 0.02) / 12)
                          (amortization_rule f n * 12) * 12 / 0.39
    < l2 * payment_factor (Py.max 0.0525 (c + 0.02) / 12)
                          (amortization_rule f n * 12) * 12 / 0.39.
Proof.
  intros H1 H12.
  pose proof (stress_factor_pos c f n) as HK.
  set (K := payment_factor _ _) in *.
  assert (0 < l1 * K) by (apply Rmult_lt_0_compat; lra).
  assert (l1 * K < l2 * K) by (apply Rmult_lt_compat_r; lra).
  lra.
Qed.

(** X14.  In [app7.py], for a positive population, two positive prices
    on one side of 1,500,000 rank the buyer pools in reverse: the cheaper
    property has strictly more estimated buyers. *)
Theorem cheaper_property_has_more_buyers :
  forall (p1 p2 : R) (region_data : App7.region) (h : household) (f n : bool),
    0 < App7.pop region_data -> 0 < p1 -> p1 < p2 ->
    p2 <= 1500000 \/ 1500000 < p1 ->
    exists (people1 people2 : R) (v : verdict),
      App7.compare p1 p2 region_data h f n = Some (people1, people2, v)
      /\ people2 < people1
      /\ (50000 < p2 - p1 -> v = Property1Wins).
Proof.
  intros p1 p2 region_data h f n Hpop Hp1 Hlt Hside.
  rewrite app7_compare_eq; cbv beta zeta.
  do 3 eexists; split; [reflexivity |].
  pose proof (proj2 (stress_loan_sign p1) Hp1) as HL1.
  pose proof (stress_loan_mono p1 p2 Hlt Hside) as HL.
  destruct (stress_income_strict _ _ (App7.rate region_data) f n HL1 HL)
    as [Hi1 Hi12].
  pose proof (app7_people_strict (App7.pop region_data) h _ _ Hpop Hi1 Hi12)
    as Hpeople.
  split; [exact Hpeople |].
  intros Hgap.
  apply (proj1 (app7_winner_spec p1 p2 _ _));
    [rewrite Rabs_left; lra | exact Hpeople].
Qed.

Lemma cheaper_property_has_more_buyers_witness :
  0 < App7.pop {| App7.rate := 0.045; App7.pop := 20000000 |}
  /\ 0 < 800000 /\ 800000 < 1000000
  /\ exists (people1 people2 : R) (v : verdict),
       App7.compare 800000 1000000
         {| App7.rate := 0.045; App7.pop := 20000000 |} Single true false
         = Some (people1, people2, v)
       /\ people2 < people1
       /\ (50000 < 1000000 - 800000 -> v = Property1Wins).
Proof.
  split; [simpl; lra |].
  split; [lra |].
  split; [lra |].
  apply (cheaper_property_has_more_buyers 800000 1000000
           {| App7.rate := 0.045; App7.pop := 20000000 |} Single true false).
  - simpl; lra.
  - lra.
  - lra.
  - left; lra.
Defined.

(** X15.  Across the 1,500,000 step the ranking can turn: in [app7.py],
    for a positive population, a price [p1] in (500,000, 1,500,000] and a
    dearer price [p2 > 1,500,000] with [0.8 p2 < 0.9 p1 + 25,000] (a
    smaller loan), the dearer property has strictly more estimated buyers
    and is the winner once the gap exceeds 50,000. *)
Theorem dearer_property_can_have_more_buyers :
  forall (p1 p2 : R) (region_data : App7.region) (h : household) (f n : bool),
    0 < App7.pop region_data ->
    500000 < p1 <= 1500000 -> 1500000 < p2 ->
    0.8 * p2 < 0.9 * p1 + 25000 ->
    exists (people1 people2 : R) (v : verdict),
      App7.compare p1 p2 region_data h f n = Some (people1, people2, v)
      /\ people1 < people2
      /\ (50000 < p2 - p1 -> v = Property2Wins).
Proof.
  intros p1 p2 region_data h f n Hpop Hp1 Hp2 Hloan.
  rewrite app7_compare_eq; cbv beta zeta.
  do 3 eexists; split; [reflexivity |].
  assert (HL2 : 0 < stress_loan p2) by (apply stress_loan_sign; lra).
  assert (HL : stress_loan p2 < stress_loan p1).
  { rewrite !stress_loan_values.
    destruct (Rle_dec p1 500000), (Rle_dec p1 1500000),
             (Rle_dec p2 500000), (Rle_dec p2 1500000); lra. }
  destruct (stress_income_strict _ _ (App7.rate region_data) f n HL2 HL)
    as [Hi2 Hi21].
  pose proof (app7_people_strict (App7.pop region_data) h _ _ Hpop Hi2 Hi21)
    as Hpeople.
  split; [exact Hpeople |].
  intros Hgap.
  apply (proj1 (proj2 (proj1 (app7_winner_spec p1 p2 _ _)
                         ltac:(rewrite Rabs_left; lra))));
    exact Hpeople.
Qed.

Lemma dearer_property_can_have_more_buyers_witness :
  0 < App7.pop {| App7.rate := 0.045; App7.pop := 20000000 |}
  /\ 500000 < 1500000 <= 1500000 /\ 1500000 < 1600000
  /\ 0.8 * 1600000 < 0.9 * 1500000 + 25000
  /\ exists (people1 people2 : R) (v : verdict),
       App7.compare 1500000 1600000
         {| App7.rate := 0.045; App7.pop := 20000000 |} Single true false
         = Some (people1, people2, v)
       /\ people1 < people2
       /\ (50000 < 1600000 - 1500000 -> v = Property2Wins).
Proof.
  split; [simpl; lra |].
  split; [lra |].
  split; [lra |].
  split; [lra |].
  apply (dearer_property_can_have_more_buyers 1500000 1600000
           {| App7.rate := 0.045; App7.pop := 20000000 |} Single true false).
  - simpl; lra.
  - lra.
  - lra.
  - lra.
Defined.

Lemma app7_people_pos (region_pop income : R) (h : household) :
  0 < region_pop -> 0 < App7.people region_pop h income.
Proof.
  intros Hpop; unfold App7.people.
  pose proof (guarded_survival_eq income) as Heq.
  pose proof (guarded_cdf_unit income App2.mu App2.sigma).
  pose proof (pop_mult_bounds h).
  apply Rmult_lt_0_compat; [apply Rmult_lt_0_compat |]; lra.
Qed.

Lemma buyer_difference_pct_pos (a b : R) :
  0 < a -> 0 < b ->
  exists g : R,
    App7.buyer_difference_pct a b = Fin g
    /\ -100 < g < 100
    /\ (0 < g <-> b < a)
    /\ (g < 0 <-> a < b).
Proof.
  intros Ha Hb; unfold App7.buyer_difference_pct, Py.max.
  destruct (Rlt_dec a b) as [Hab | Hab].
  - rewrite np_div_fin by lra; cbn [Np.mul].
    eexists; split; [reflexivity |].
    assert (Hinv : 0 < / b) by now apply Rinv_0_lt_compat.
    assert (Hbb : b * / b = 1) by (apply Rinv_r; lra).
    unfold Rdiv.
    assert (-1 < (a - b) * / b < 0) by (split; nra).
    repeat split; intros; lra.
  - rewrite np_div_fin by lra; cbn [Np.mul].
    eexists; split; [reflexivity |].
    assert (Hinv : 0 < / a) by now apply Rinv_0_lt_compat.
    assert (Haa : a * / a = 1) by (apply Rinv_r; lra).
    unfold Rdiv.
    assert (0 <= (a - b) * / a < 1) by (split; nra).
    repeat split; intros; try lra.
    + destruct (Req_dec_T a b) as [-> | Hne]; [| lra].
      rewrite Rminus_diag, Rmult_0_l in *; lra.
    + assert (0 < (a - b) * / a) by (apply Rmult_lt_0_compat; lra). lra.
Qed.

Lemma buyer_difference_pct_zero : App7.buyer_difference_pct 0 0 = NaN.
Proof.
  unfold App7.buyer_difference_pct.
  rewrite (py_max_left 0 0) by lra.
  rewrite Rminus_diag; cbn [Np.div].
  destruct (Req_dec_T 0 0) as [_ | Hne]; [| now elim Hne].
  unfold Np.scale_inf.
  destruct (Rlt_dec 0 0); [lra | reflexivity].
Qed.

(** X16.  For two positive prices the relative buyer difference of
    [app7.py], [(people1-people2)/max(people1,people2)*100], is a finite
    number when the regional population is positive: both counts are
    positive, the figure lies strictly between -100 and 100, and it is
    positive exactly when property 1 has more buyers.  With a population
    of zero both counts are 0 and the figure is NaN; nothing is raised. *)
Theorem relative_buyer_difference_bounded :
  forall (p1 p2 : R) (region_data : App7.region) (h : household) (f n : bool),
    0 < p1 -> 0 < p2 ->
    exists (people1 people2 : R) (v : verdict),
      App7.compare p1 p2 region_data h f n = Some (people1, people2, v)
      /\ (0 < App7.pop region_data ->
          exists g : R,
            App7.buyer_difference_pct people1 people2 = Fin g
            /\ -100 < g < 100
            /\ (0 < g <-> people2 < people1)
            /\ (g < 0 <-> people1 < people2))
      /\ (App7.pop region_data = 0 ->
          App7.buyer_difference_pct people1 people2 = NaN).
Proof.
  intros p1 p2 region_data h f n _ _.
  rewrite app7_compare_eq; cbv beta zeta.
  do 3 eexists; split; [reflexivity |].
  split.
  - intros Hpop.
    apply buyer_difference_pct_pos; now apply app7_people_pos.
  - intros ->; unfold App7.people.
    rewrite !Rmult_0_r, !Rmult_0_l.
    apply buyer_difference_pct_zero.
Qed.

Lemma relative_buyer_difference_bounded_witness :
  0 < 800000 /\ 0 < 1000000
  /\ exists (people1 people2 : R) (v : verdict),
       App7.compare 800000 1000000
         {| App7.rate := 0.045; App7.pop := 20000000 |} Single true false
         = Some (people1, people2, v)
       /\ exists g : R,
            App7.buyer_difference_pct people1 people2 = Fin g
            /\ -100 < g < 100
            /\ (0 < g <-> people2 < people1)
            /\ (g < 0 <-> people1 < people2).
Proof.
  split; [lra |].
  split; [lra |].
  destruct (relative_buyer_difference_bounded 800000 1000000
              {| App7.rate := 0.045; App7.pop := 20000000 |} Single true false
              ltac:(lra) ltac:(lra))
    as (a & b & v & Hc & Hpos & _).
  exists a, b, v; split; [exact Hc |].
  apply Hpos; simpl; lra.
Defined.

Lemma app7_winner_swap (price1 price2 a b : R) :
  App7.winner price2 price1 (b - a)
    = swap_verdict (App7.winner price1 price2 (a - b)).
Proof.
  unfold App7.winner.
  rewrite (Rabs_minus_sym price2 price1).
  destruct (Rlt_dec 50000 (Rabs (price1 - price2))); [| reflexivity].
  destruct (Rlt_dec 0 (b - a)), (Rlt_dec (b - a) 0),
           (Rlt_dec 0 (a - b)), (Rlt_dec (a - b) 0);
    try reflexivity; lra.
Qed.

(** X17.  The comparison of [app7.py] does not depend on which property is
    entered first: exchanging the two prices exchanges the two buyer
    counts and turns the verdict into its mirror image (a tie and the
    absence of a verdict stay as they are). *)
Theorem comparison_symmetric :
  forall (p1 p2 : R) (region_data : App7.region) (h : household) (f n : bool),
    exists (people1 people2 : R) (v : verdict),
      App7.compare p1 p2 region_data h f n = Some (people1, people2, v)
      /\ App7.compare p2 p1 region_data h f n
         = Some (people2, people1, swap_verdict v).
Proof.
  intros p1 p2 region_data h f n.
  rewrite !app7_compare_eq; cbv beta zeta.
  do 3 eexists; split; [reflexivity |].
  now rewrite app7_winner_swap.
Qed.

Lemma app5_compare_eq (price1 price2 : R) (region_data : App5.region)
    (h : household) (f n : bool) :
  App5.compare price1 price2 region_data h f n =
    let people_at price :=
      App5.people (App5.pop region_data) h
        (App5.income_needed h
           (stress_loan price
              * payment_factor
                  (Py.max 0.0525 (App5.rate region_data + 0.02) / 12)
                  (amortization_rule f n * 12)
              * 12 / 0.39)) in
    Some (people_at price1, people_at price2,
          App5.winner price1 price2 (people_at price1) (people_at price2)).
Proof.
  unfold App5.compare.
  rewrite !app5_calc_eq.
  reflexivity.
Qed.

(** X18.  A tie past the threshold is decided differently by the two
    stress-tested variants.  For every price [p1] from 1,305,556 to
    1,500,000 and the dearer price [p2 = 1.125 p1 + 31,250] the two loans
    are equal, hence the two buyer counts; [app5.py] then names property 2
    the winner whichever property is entered first, while [app7.py]
    reports a tie. *)
Theorem tie_names_property_2_in_app5 :
  forall (p1 rate pop : R) (h : household) (f n : bool),
    1305556 <= p1 <= 1500000 ->
    exists people : R,
      App5.compare p1 (1.125 * p1 + 31250)
        {| App5.rate := rate; App5.pop := pop |} h f n
        = Some (people, people, Property2Wins)
      /\ App5.compare (1.125 * p1 + 31250) p1
        {| App5.rate := rate; App5.pop := pop |} h f n
        = Some (people, people, Property2Wins)
      /\ App7.compare p1 (1.125 * p1 + 31250)
        {| App7.rate := rate; App7.pop := pop |} h f n
        = Some (people, people, Tie).
Proof.
  intros p1 rate pop h f n Hp1.
  rewrite !app5_compare_eq, app7_compare_eq; cbv beta zeta.
  cbn [App5.rate App5.pop App7.rate App7.pop].
  assert (Hloan : stress_loan (1.125 * p1 + 31250) = stress_loan p1).
  { rewrite !stress_loan_values.
    destruct (Rle_dec p1 500000), (Rle_dec p1 1500000),
             (Rle_dec (1.125 * p1 + 31250) 500000),
             (Rle_dec (1.125 * p1 + 31250) 1500000); lra. }
  rewrite Hloan.
  assert (Hgap : 50000 < Rabs (p1 - (1.125 * p1 + 31250)))
    by (rewrite Rabs_left; lra).
  assert (Hgap' : 50000 < Rabs (1.125 * p1 + 31250 - p1))
    by (rewrite Rabs_right; lra).
  eexists; split; [| split].
  - f_equal; f_equal. unfold App5.winner.
    destruct (Rlt_dec 50000 (Rabs (p1 - (1.125 * p1 + 31250))));
      [| contradiction].
    match goal with
    | |- (if Rlt_dec ?x ?x then _ else _) = _ =>
        destruct (Rlt_dec x x); [lra | reflexivity]
    end.
  - f_equal; f_equal. unfold App5.winner.
    destruct (Rlt_dec 50000 (Rabs (1.125 * p1 + 31250 - p1)));
      [| contradiction].
    match goal with
    | |- (if Rlt_dec ?x ?x then _ else _) = _ =>
        destruct (Rlt_dec x x); [lra | reflexivity]
    end.
  - f_equal; f_equal. unfold App7.winner.
    destruct (Rlt_dec 50000 (Rabs (p1 - (1.125 * p1 + 31250))));
      [| contradiction].
    rewrite Rminus_diag.
    destruct (Rlt_dec 0 0); [lra | reflexivity].
Qed.

Lemma tie_names_property_2_in_app5_witness :
  1305556 <= 1350000 <= 1500000
  /\ exists people : R,
       App5.compare 1350000 (1.125 * 1350000 + 31250)
         {| App5.rate := 0.045; App5.pop := 20000000 |} Single true false
         = Some (people, people, Property2Wins)
       /\ App5.compare (1.125 * 1350000 + 31250) 1350000
         {| App5.rate := 0.045; App5.pop := 20000000 |} Single true false
         = Some (people, people, Property2Wins)
       /\ App7.compare 1350000 (1.125 * 1350000 + 31250)
         {| App7.rate := 0.045; App7.pop := 20000000 |} Single true false
         = Some (people, people, Tie).
Proof.
  split; [lra |].
  apply (tie_names_property_2_in_app5 1350000 0.045 20000000 Single true false).
  lra.
Defined.

(** ** The regional tables *)

Lemma for_each_map {A B : Type} (body : A -> option B) (g : A -> B)
    (l : list A) :
  (forall a : A, In a l -> body a = Some (g a)) ->
  Py.for_each body l = Some (map g l).
Proof.
  induction l as [| a rest IH]; intros Hbody; [reflexivity |].
  simpl.
  rewrite (Hbody a) by (left; reflexivity).
  rewrite IH by (intros b Hb; apply Hbody; right; exact Hb).
  reflexivity.
Qed.

Lemma times_one_point_zero (x : R) : x * 1.0 = x.
Proof. lra. Qed.

Lemma app7_table_row_eq (p1 p2 : R) (h : household) (f n : bool)
    (name : string) (r : App7.region) :
  exists a b : R,
    App7.table_row p1 p2 h f n (name, r) = Some (name, a, b)
    /\ exists v : verdict, App7.compare p1 p2 r h f n = Some (a, b, v).
Proof.
  rewrite app7_compare_eq; cbv beta zeta.
  unfold App7.table_row.
  rewrite !app7_calc_eq; cbn [Py.bind].
  do 2 eexists; split; [| eexists; reflexivity].
  unfold App7.people, App7.prob, App7.income_needed.
  destruct h; [| reflexivity].
  now rewrite !times_one_point_zero.
Qed.

(** X19.  The regional table of [app7.py] has one row per region of the
    catalog, in catalog order, and the row of a region carries exactly
    the two buyer counts that the head-to-head comparison computes for
    that region with the same prices, household and flags. *)
Theorem app7_table_agrees_with_comparison :
  forall (p1 p2 : R) (h : household) (f n : bool),
    exists rows : list (string * R * R),
      App7.comparison p1 p2 h f n = Some rows
      /\ map (fun row => fst (fst row)) rows = map fst App7.REGIONS
      /\ forall (name : string) (r : App7.region),
           In (name, r) App7.REGIONS ->
           exists (people1 people2 : R) (v : verdict),
             App7.compare p1 p2 r h f n = Some (people1, people2, v)
             /\ In (name, people1, people2) rows.
Proof.
  intros p1 p2 h f n.
  set (g := fun entry : string * App7.region =>
              match App7.table_row p1 p2 h f n entry with
              | Some row => row
              | None => (fst entry, 0, 0)
              end).
  assert (Hg : forall entry, App7.table_row p1 p2 h f n entry = Some (g entry)).
  { intros [name r]; unfold g.
    destruct (app7_table_row_eq p1 p2 h f n name r) as (a & b & -> & _).
    reflexivity. }
  exists (map g App7.REGIONS); split; [| split].
  - unfold App7.comparison. apply for_each_map; intros a _; apply Hg.
  - rewrite map_map. apply map_ext; intros [name r]; unfold g.
    destruct (app7_table_row_eq p1 p2 h f n name r) as (a & b & -> & _).
    reflexivity.
  - intros name r Hin.
    destruct (app7_table_row_eq p1 p2 h f n name r) as (a & b & Hrow & v & Hc).
    exists a, b, v; split; [exact Hc |].
    replace (name, a, b) with (g (name, r)) by (unfold g; now rewrite Hrow).
    now apply in_map.
Qed.

Lemma app4_table_row_eq (p1 p2 : R) (h : household)
    (name : string) (r : App4.region) :
  0 < App4.rate r ->
  exists a b : R,
    App4.table_row p1 p2 h (name, r) = Some (name, a, b)
    /\ exists v : verdict, App4.compare p1 p2 r h = Some (a, b, v).
Proof.
  intros Hr.
  unfold App4.table_row, App4.compare, App4.calc_affordable.
  rewrite !app2_calc_eq by exact Hr; cbn [Py.bind fst].
  do 2 eexists; split; [| eexists; reflexivity].
  unfold App4.people, App4.prob, App4.income_needed.
  destruct h; [| reflexivity].
  now rewrite !times_one_point_zero.
Qed.

(** X20.  The regional table of [app4.py] is computed without error for
    any two prices, has one row per region of the catalog, in catalog
    order, and the row of a region carries exactly the two buyer counts
    of the head-to-head comparison for that region. *)
Theorem app4_table_agrees_with_comparison :
  forall (p1 p2 : R) (h : household),
    exists rows : list (string * R * R),
      App4.comparison p1 p2 h = Some rows
      /\ map (fun row => fst (fst row)) rows = map fst App4.REGIONS
      /\ forall (name : string) (r : App4.region),
           In (name, r) App4.REGIONS ->
           exists (people1 people2 : R) (v : verdict),
             App4.compare p1 p2 r h = Some (people1, people2, v)
             /\ In (name, people1, people2) rows.
Proof.
  intros p1 p2 h.
  set (g := fun entry : string * App4.region =>
              match App4.table_row p1 p2 h entry with
              | Some row => row
              | None => (fst entry, 0, 0)
              end).
  assert (Hg : forall entry, In entry App4.REGIONS ->
                 App4.table_row p1 p2 h entry = Some (g entry)
                 /\ fst (fst (g entry)) = fst entry).
  { intros [name r] Hin; unfold g.
    destruct (app4_region_valid name r Hin) as (Hr & _ & _).
    destruct (app4_table_row_eq p1 p2 h name r Hr) as (a & b & -> & _).
    split; reflexivity. }
  exists (map g App4.REGIONS); split; [| split].
  - unfold App4.comparison. apply for_each_map; intros a Ha; now apply Hg.
  - rewrite map_map. apply map_ext_in; intros entry Hin; now apply Hg.
  - intros name r Hin.
    destruct (app4_region_valid name r Hin) as (Hr & _ & _).
    destruct (app4_table_row_eq p1 p2 h name r Hr) as (a & b & Hrow & v & Hc).
    exists a, b, v; split; [exact Hc |].
    replace (name, a, b) with (g (name, r)) by (unfold g; now rewrite Hrow).
    now apply in_map.
Qed.

Lemma app2_main_panel_some (price : R) (r : App2.region) (h : household) :
  0 < App2.rate r ->
  exists i d pr ppl pct : R,
    App2.main_panel price r h = Some (i, d, pr, ppl, pct)
    /\ forall (inc : R) (name : string),
         App2.table_row price inc h (name, r) = Some (name, inc, ppl, pct).
Proof.
  intros Hr.
  unfold App2.main_panel, App2.table_row.
  rewrite app2_calc_eq by exact Hr; cbn [Py.bind fst snd].
  destruct h; do 5 eexists; (split; [reflexivity |]); intros inc name;
    rewrite ?Rmult_1_r; reflexivity.
Qed.

(** X21.  The regional table of [app2.py] has one row per region of the
    catalog, in catalog order, but its income column is not regional:
    every row repeats the required income of the region selected in the
    main panel.  The row of the selected region carries the buyer count
    and the percentage of the main panel. *)
Theorem app2_table_repeats_selected_income :
  forall (price : R) (name0 : string) (r0 : App2.region) (h : household),
    In (name0, r0) App2.REGIONS ->
    exists (i d pr ppl pct : R) (rows : list (string * R * R * R)),
      App2.main_panel price r0 h = Some (i, d, pr, ppl, pct)
      /\ App2.comparison price r0 h = Some rows
      /\ map (fun row => fst (fst (fst row))) rows = map fst App2.REGIONS
      /\ Forall (fun row => snd (fst (fst row)) = i) rows
      /\ In (name0, i, ppl, pct) rows.
Proof.
  intros price name0 r0 h Hin0.
  destruct (app2_region_valid name0 r0 Hin0) as (Hr0 & _ & _).
  destruct (app2_main_panel_some price r0 h Hr0)
    as (i & d & pr & ppl & pct & Hmain & Hrow0).
  set (g := fun entry : string * App2.region =>
              match App2.table_row price i h entry with
              | Some row => row
              | None => (fst entry, i, 0, 0)
              end).
  assert (Hg : forall entry, In entry App2.REGIONS ->
                 App2.table_row price i h entry = Some (g entry)
                 /\ fst (fst (fst (g entry))) = fst entry
                 /\ snd (fst (fst (g entry))) = i).
  { intros [name r] Hin; unfold g.
    destruct (app2_region_valid name r Hin) as (Hr & _ & _).
    destruct (app2_main_panel_some price r h Hr)
      as (_ & _ & _ & ppl' & pct' & _ & Hrow).
    rewrite Hrow; repeat split; reflexivity. }
  exists i, d, pr, ppl, pct, (map g App2.REGIONS).
  split; [exact Hmain |].
  split.
  { unfold App2.comparison; rewrite Hmain; cbn [Py.bind].
    apply for_each_map; intros a Ha; now apply Hg. }
  split.
  { rewrite map_map. apply map_ext_in; intros entry Hin; now apply Hg. }
  split.
  { apply Forall_forall; intros row Hrow.
    apply in_map_iff in Hrow as (entry & <- & Hin); now apply Hg. }
  replace (name0, i, ppl, pct) with (g (name0, r0))
    by (unfold g; now rewrite Hrow0).
  now apply in_map.
Qed.

Lemma app2_table_repeats_selected_income_witness :
  In ("Quebec"%string,
      {| App2.down := 0.03; App2.rate := 0.044; App2.pop := 9000000 |})
     App2.REGIONS
  /\ exists (i d pr ppl pct : R) (rows : list (string * R * R * R)),
       App2.main_panel 800000
         {| App2.down := 0.03; App2.rate := 0.044; App2.pop := 9000000 |} Couple
         = Some (i, d, pr, ppl, pct)
       /\ App2.comparison 800000
         {| App2.down := 0.03; App2.rate := 0.044; App2.pop := 9000000 |} Couple
         = Some rows
       /\ map (fun row => fst (fst (fst row))) rows = map fst App2.REGIONS
       /\ Forall (fun row => snd (fst (fst row)) = i) rows
       /\ In ("Quebec"%string, i, ppl, pct) rows.
Proof.
  split; [do 4 right; left; reflexivity |].
  apply (app2_table_repeats_selected_income 800000 "Quebec"%string
           {| App2.down := 0.03; App2.rate := 0.044; App2.pop := 9000000 |}
           Couple).
  do 4 right; left; reflexivity.
Defined.

(** ** The density and the chart *)

Lemma sqrt_two_pi_pos : 0 < sqrt (2 * PI).
Proof. apply sqrt_lt_R0. pose proof PI_RGT_0; lra. Qed.

Lemma app2_pdf_positive (x mu sigma : R) :
  0 < x -> 0 < sigma ->
  exists v : R,
    App2.lognorm_pdf x mu sigma = Fin v
    /\ 0 < v <= / (x * sigma * sqrt (2 * PI)).
Proof.
  intros Hx Hs.
  pose proof sqrt_two_pi_pos as Hq.
  assert (Hden : 0 < x * sigma * sqrt (2 * PI))
    by (apply Rmult_lt_0_compat; [apply Rmult_lt_0_compat |]; assumption).
  unfold App2.lognorm_pdf.
  rewrite np_log_positive by exact Hx.
  cbn [Np.sub Np.neg Np.add Np.mul].
  rewrite np_div_fin by nra.
  cbn [Np.exp].
  rewrite np_div_fin by lra.
  eexists; split; [reflexivity |].
  set (E := - ((ln x + - mu) * (ln x + - mu)) / (2 * sigma ^ 2)).
  assert (HE : E <= 0).
  { unfold E.
    assert (0 < 2 * sigma ^ 2) by nra.
    assert (HA : 0 <= (ln x + - mu) * (ln x + - mu))
      by apply (Rle_0_sqr (ln x + - mu)).
    assert (0 < / (2 * sigma ^ 2)) by now apply Rinv_0_lt_compat.
    assert (0 <= (ln x + - mu) * (ln x + - mu) * / (2 * sigma ^ 2))
      by (apply Rmult_le_pos; lra).
    unfold Rdiv; lra. }
  assert (Hexp : 0 < exp E <= 1).
  { split; [apply exp_pos |].
    rewrite <- exp_0.
    destruct HE as [HE | ->]; [left; now apply exp_increasing | right; reflexivity]. }
  assert (Hinv : 0 < / (x * sigma * sqrt (2 * PI)))
    by now apply Rinv_0_lt_compat.
  unfold Rdiv; split; nra.
Qed.

Lemma income_range_points (x : R) :
  In x App2.income_range ->
  exists i : nat, (i < 1000)%nat /\ x = INR i * (399999 / 999) + 1.
Proof.
  unfold App2.income_range, Np.linspace.
  intros Hin; apply in_map_iff in Hin as (i & <- & Hi).
  apply in_seq in Hi.
  exists i; split; [lia |].
  assert (H999 : INR (1000 - 1) = 999)
    by (rewrite INR_IZR_INZ; reflexivity).
  rewrite H999; lra.
Qed.

(** X22.  The chart evaluates the density on 1000 incomes that all lie
    between 1 and 400,000, so [lognorm_pdf] never meets a non-positive
    income there: with the default parameters every ordinate is a finite,
    strictly positive number, at most [1 / (x sigma sqrt(2 pi))]. *)
Theorem chart_density_is_finite_and_positive :
  List.length App2.income_range = 1000%nat
  /\ Forall
       (fun x =>
          1 <= x <= 400000
          /\ exists v : R,
               App2.lognorm_pdf x App2.mu App2.sigma = Fin v
               /\ 0 < v <= / (x * App2.sigma * sqrt (2 * PI)))
       App2.income_range.
Proof.
  split.
  - unfold App2.income_range, Np.linspace.
    now rewrite length_map, length_seq.
  - apply Forall_forall; intros x Hin.
    destruct (income_range_points x Hin) as (i & Hi & ->).
    assert (Hlo : 0 <= INR i) by apply pos_INR.
    assert (Hhi : INR i <= 999).
    { replace 999 with (INR 999) by (rewrite INR_IZR_INZ; reflexivity).
      apply le_INR; lia. }
    assert (Hx : 1 <= INR i * (399999 / 999) + 1 <= 400000) by (split; nra).
    split; [exact Hx |].
    apply app2_pdf_positive; [lra | apply default_sigma_pos].
Qed.

(** X23.  Without a guard, the cumulative function of [app.py] still
    returns 0 at an income of exactly 0 when [s] is not negative:
    [np.log(0)] is [-inf], which the hyperbolic tangent and the
    exponential turn into -1 and 0.  With a negative [s] it returns 1. *)
Theorem unguarded_cdf_at_zero_income :
  forall s scale : R,
    0 < scale ->
    (0 <= s -> App1.lognorm_cdf 0 s scale = Fin 0)
    /\ (s < 0 -> App1.lognorm_cdf 0 s scale = Fin 1).
Proof.
  intros s scale Hscale.
  unfold App1.lognorm_cdf.
  rewrite np_log_zero, np_log_positive by exact Hscale.
  cbn [Np.sub Np.neg Np.add].
  pose proof Rlt_sqrt2_0 as H2.
  split; intros Hs; cbn [Np.div];
    destruct (Rlt_dec s 0); try lra;
    cbn [Np.mul]; unfold Np.scale_inf;
    destruct (Rlt_dec 0 (sqrt 2)); try lra;
    cbn [Np.sign_inf Np.neg negb Np.div];
    destruct (Rlt_dec 2 0); try lra;
    cbn [Np.tanh Np.exp Np.add Np.mul];
    f_equal; lra.
Qed.

Lemma unguarded_cdf_at_zero_income_witness :
  0 < exp 10.45 /\ 0 <= 0.95
  /\ App1.lognorm_cdf 0 0.95 (exp 10.45) = Fin 0.
Proof.
  split; [apply exp_pos |].
  split; [lra |].
  apply (unguarded_cdf_at_zero_income 0.95 (exp 10.45)).
  - apply exp_pos.
  - lra.
Defined.

(** X24.  The approximation of [app.py] misplaces the median: at the
    income [scale] (the median [e^mu] of the fitted distribution) it
    returns [0.5 * (1 + sqrt(2/pi))], more than 0.89, for every positive
    [scale] and non-zero [s], where the guarded approximation of the
    later variants returns 0.5. *)
Theorem unguarded_cdf_at_median :
  forall s scale : R,
    0 < scale -> s <> 0 ->
    exists v : R,
      App1.lognorm_cdf scale s scale = Fin v
      /\ v = 0.5 * (1 + sqrt (2 / PI))
      /\ 0.89 < v
      /\ App2.lognorm_cdf (exp App2.mu) App2.mu App2.sigma = 0.5.
Proof.
  intros s scale Hscale Hs.
  rewrite app1_cdf_positive by assumption; cbv zeta.
  replace ((ln scale - ln scale) / s) with 0 by (field; exact Hs).
  replace (sqrt 2 * 0 / 2) with 0 by lra.
  replace (- (0 * 0) / 2) with 0 by lra.
  rewrite tanh_zero, exp_0.
  eexists; split; [reflexivity |].
  pose proof sqrt_two_over_pi_lower as Hq.
  split; [lra |].
  split; [lra |].
  rewrite guarded_cdf_positive by apply exp_pos.
  rewrite ln_exp.
  replace (sqrt (2 / 3) * ((App2.mu - App2.mu) / App2.sigma)) with 0
    by (unfold App2.sigma; field; lra).
  rewrite tanh_zero; lra.
Qed.

Lemma unguarded_cdf_at_median_witness :
  0 < exp 10.45 /\ 0.95 <> 0
  /\ exists v : R,
       App1.lognorm_cdf (exp 10.45) 0.95 (exp 10.45) = Fin v
       /\ v = 0.5 * (1 + sqrt (2 / PI))
       /\ 0.89 < v
       /\ App2.lognorm_cdf (exp App2.mu) App2.mu App2.sigma = 0.5.
Proof.
  split; [apply exp_pos |].
  split; [lra |].
  apply (unguarded_cdf_at_median 0.95 (exp 10.45)).
  - apply exp_pos.
  - lra.
Defined.
